(** * VROOM command-line front end ([src/main.cpp])

    A shallow embedding of [main] and [display_usage], together with the
    two library routines whose behaviour decides what [main] does:
    [getopt] (the flag scanner of <unistd.h>) and [std::stoul] (the numeric
    conversion of <string>).  The process is modelled as a function from
    the argument vector and the environment to the sequence of observable
    events it performs and the way it terminates. *)

From Stdlib Require Import ZArith List String Ascii Bool Lia DecimalString.
From Stdlib Require Import DecimalN.
Import ListNotations.

Open Scope string_scope.
Open Scope Z_scope.

(* ================================================================== *)
(** ** Platform constants *)

(** [std::stoul] returns an [unsigned long]; the numeric fields of
    [cl_args_t] are [unsigned].  The widths are those of an LP64 system. *)
Definition ULONG_MAX : Z := 2 ^ 64 - 1.
Definition UINT_MAX : Z := 2 ^ 32 - 1.

(** Conversion of an [unsigned long] to [unsigned] on assignment: the value
    is reduced modulo [UINT_MAX + 1]. *)
Definition to_unsigned (v : Z) : Z := v mod (UINT_MAX + 1).

(* ================================================================== *)
(** ** Characters and text *)

Definition nl : string := String "010" "".
Definition tab : string := String "009" "".
Definition dquote : string := String "034" "".

Definition code (c : ascii) : Z := Z.of_N (N_of_ascii c).

(** [isspace] in the C locale: space, and the controls \t \n \v \f \r. *)
Definition isspace (c : ascii) : bool :=
  (code c =? 32) || ((9 <=? code c) && (code c <=? 13)).

Definition isdigit (c : ascii) : bool :=
  (48 <=? code c) && (code c <=? 57).

Definition digit_value (c : ascii) : Z := code c - 48.

(** [std::to_string] on an unsigned value: its decimal numeral. *)
Definition to_string (n : Z) : string :=
  NilZero.string_of_uint (N.to_uint (Z.to_N n)).

(* ================================================================== *)
(** ** [std::stoul] *)

Module Stoul.

Fixpoint skip_space (s : string) : string :=
  match s with
  | String c rest => if isspace c then skip_space rest else s
  | EmptyString => s
  end.

(** The sign accepted by [strtoul]: the flag is [true] after a minus. *)
Definition take_sign (s : string) : bool * string :=
  match s with
  | String "-" rest => (true, rest)
  | String "+" rest => (false, rest)
  | _ => (false, s)
  end.

(** The longest run of decimal digits at the start of the text. *)
Fixpoint digit_run (s : string) : string :=
  match s with
  | String c rest => if isdigit c then String c (digit_run rest) else ""
  | EmptyString => ""
  end.

(** Value of a digit string, most significant digit first. *)
Fixpoint accumulate (acc : Z) (ds : string) : Z :=
  match ds with
  | String c rest => accumulate (10 * acc + digit_value c) rest
  | EmptyString => acc
  end.

Inductive error := invalid_argument | out_of_range.

(** [std::stoul(str)] with the default base 10 and no position argument.
    It runs [strtoul]: white space is skipped, one sign is accepted, and
    the digits that follow are converted; whatever comes after them is not
    looked at.  Without any digit nothing was converted and
    [std::invalid_argument] is thrown; a magnitude above [ULONG_MAX] sets
    ERANGE and [std::out_of_range] is thrown; after a minus sign the
    magnitude is negated in the unsigned type. *)
Definition stoul (str : string) : error + Z :=
  let (negative, rest) := take_sign (skip_space str) in
  let ds := digit_run rest in
  match ds with
  | EmptyString => inl invalid_argument
  | _ =>
      let magnitude := accumulate 0 ds in
      if ULONG_MAX <? magnitude then inl out_of_range
      else if negative then inr ((ULONG_MAX + 1 - magnitude) mod (ULONG_MAX + 1))
      else inr magnitude
  end.

End Stoul.

(* ================================================================== *)
(** ** [getopt] *)

Module Getopt.

(** Looks an option character up in the option string: [None] when it is
    not an option, otherwise whether it takes an argument (it is followed
    by a colon).  A colon is never an option. *)
Fixpoint find_opt (c : ascii) (optstring : string) : option bool :=
  match optstring with
  | EmptyString => None
  | String d rest =>
      if Ascii.eqb c d
      then Some (match rest with String ":" _ => true | _ => false end)
      else find_opt c rest
  end.

Definition lookup (optstring : string) (c : ascii) : option bool :=
  if Ascii.eqb c ":" then None else find_opt c optstring.

(** One value returned by [getopt]: the option character (['?'] for an
    unknown option or a missing argument) and [optarg], which only an
    option that takes an argument sets. *)
Definition ret : Type := ascii * string.

(** What a call prints on the diagnostic stream when it returns ['?'] for
    an error ([opterr] is left at its initial value 1): the line
    "prog: invalid option -- 'c'" for a character that is not an option,
    or "prog: option requires an argument -- 'c'" for an option left
    without its argument. *)
Inductive diagnostic :=
| invalid_option (c : ascii)
| option_requires_argument (c : ascii).

Definition message (program : string) (d : diagnostic) : string :=
  match d with
  | invalid_option c =>
      program ++ ": invalid option -- '" ++ String c "'"
  | option_requires_argument c =>
      program ++ ": option requires an argument -- '" ++ String c "'"
  end.

(** One call of [getopt]: the value it returns and the line it prints, if
    any. *)
Definition call : Type := ret * option diagnostic.

(** The calls that read one argument-vector element, given the text after
    its dash.  Flags can be grouped; an option that takes an argument uses
    the remainder of the element when there is one, and otherwise waits
    for the next element (second component). *)
Fixpoint scan_element (optstring : string) (s : string)
  : list call * option ascii :=
  match s with
  | EmptyString => ([], None)
  | String c rest =>
      match lookup optstring c with
      | None =>
          let (cs, pending) := scan_element optstring rest in
          ((("?"%char, ""), Some (invalid_option c)) :: cs, pending)
      | Some false =>
          let (cs, pending) := scan_element optstring rest in
          (((c, ""), None) :: cs, pending)
      | Some true =>
          match rest with
          | EmptyString => ([], Some c)
          | _ => ([((c, rest), None)], None)
          end
      end
  end.

(** An element that is not an option: it does not start with a dash, or
    it is the lone dash. *)
Definition nonoption (a : string) : bool :=
  match a with
  | String "-" (String _ _) => false
  | _ => true
  end.

Definition after_dash (a : string) : string :=
  match a with
  | String _ rest => rest
  | EmptyString => ""
  end.

(** All the calls of [getopt] before the one that returns -1, and the
    operands: the elements [argv[optind ..]] once -1 has been returned.
    [args] is the argument vector without [argv[0]].

    By default the GNU scanner permutes the vector, so options are
    recognised wherever they stand and the elements that are not options
    end up, in their order, after them; with POSIXLY_CORRECT in the
    environment scanning stops at the first element that is not an option.
    The element [--] ends the options in both modes.  An option left
    without its argument at the end of the vector gives ['?'] and a
    line on the diagnostic stream. *)
Fixpoint scan (optstring : string) (posixly_correct : bool)
    (pending : option ascii) (nonopts : list string) (args : list string)
  : list call * list string :=
  match args with
  | [] =>
      match pending with
      | Some c =>
          ([(("?"%char, ""), Some (option_requires_argument c))], nonopts)
      | None => ([], nonopts)
      end
  | a :: rest =>
      match pending with
      | Some c =>
          let (cs, operands) :=
            scan optstring posixly_correct None nonopts rest in
          (((c, a), None) :: cs, operands)
      | None =>
          if String.eqb a "--" then ([], nonopts ++ rest)%list
          else if nonoption a then
            if posixly_correct then ([], nonopts ++ a :: rest)%list
            else scan optstring posixly_correct None (nonopts ++ [a])%list rest
          else
            let (cs1, pending') := scan_element optstring (after_dash a) in
            let (cs, operands) :=
              scan optstring posixly_correct pending' nonopts rest in
            ((cs1 ++ cs)%list, operands)
      end
  end.

Definition getopt_calls (optstring : string) (posixly_correct : bool)
    (args : list string) : list call * list string :=
  scan optstring posixly_correct None [] args.

(** The values returned, without the printed lines, and the operands. *)
Definition getopt_all (optstring : string) (posixly_correct : bool)
    (args : list string) : list ret * list string :=
  let (cs, operands) := getopt_calls optstring posixly_correct args in
  (map fst cs, operands).

(** The lines a sequence of calls prints, in order. *)
Definition diagnostics (cs : list call) : list diagnostic :=
  flat_map (fun c : call =>
              match snd c with Some d => [d] | None => [] end) cs.

End Getopt.

(* ================================================================== *)
(** ** Command-line options ([structures/cl_args.h]) *)

(** [boost::log::trivial::severity_level]. *)
Inductive severity_level := trace | debug | info | warning | error | fatal.

Record cl_args_t := {
  osrm_address : string;
  geometry : bool;
  input_file : string;
  output_file : string;
  osrm_port : string;
  use_libosrm : bool;
  log_level : severity_level;
  input : string;
  nb_threads : Z;
  osrm_profile : string;
  exploration_level : Z;
  max_exploration_level : Z
}.

(** Modelled from the spec: the constructor of [cl_args_t], declared in
    [structures/cl_args.h], which is not among the sources.  The defaults
    are those of the data model: address 0.0.0.0, port 5000, no profile,
    no geometry, no input or output file, networked routing, 4 threads,
    exploration level 1 with ceiling 5.  The default severity is left to
    the caller. *)
Definition default_cl_args (default_log_level : severity_level) : cl_args_t :=
  {| osrm_address := "0.0.0.0";
     geometry := false;
     input_file := "";
     output_file := "";
     osrm_port := "5000";
     use_libosrm := false;
     log_level := default_log_level;
     input := "";
     nb_threads := 4;
     osrm_profile := "";
     exploration_level := 1;
     max_exploration_level := 5 |}.

Definition set_osrm_address (v : string) (c : cl_args_t) : cl_args_t :=
  {| osrm_address := v; geometry := geometry c; input_file := input_file c;
     output_file := output_file c; osrm_port := osrm_port c;
     use_libosrm := use_libosrm c; log_level := log_level c; input := input c;
     nb_threads := nb_threads c; osrm_profile := osrm_profile c;
     exploration_level := exploration_level c;
     max_exploration_level := max_exploration_level c |}.

Definition set_geometry (v : bool) (c : cl_args_t) : cl_args_t :=
  {| osrm_address := osrm_address c; geometry := v; input_file := input_file c;
     output_file := output_file c; osrm_port := osrm_port c;
     use_libosrm := use_libosrm c; log_level := log_level c; input := input c;
     nb_threads := nb_threads c; osrm_profile := osrm_profile c;
     exploration_level := exploration_level c;
     max_exploration_level := max_exploration_level c |}.

Definition set_input_file (v : string) (c : cl_args_t) : cl_args_t :=
  {| osrm_address := osrm_address c; geometry := geometry c; input_file := v;
     output_file := output_file c; osrm_port := osrm_port c;
     use_libosrm := use_libosrm c; log_level := log_level c; input := input c;
     nb_threads := nb_threads c; osrm_profile := osrm_profile c;
     exploration_level := exploration_level c;
     max_exploration_level := max_exploration_level c |}.

Definition set_output_file (v : string) (c : cl_args_t) : cl_args_t :=
  {| osrm_address := osrm_address c; geometry := geometry c;
     input_file := input_file c; output_file := v; osrm_port := osrm_port c;
     use_libosrm := use_libosrm c; log_level := log_level c; input := input c;
     nb_threads := nb_threads c; osrm_profile := osrm_profile c;
     exploration_level := exploration_level c;
     max_exploration_level := max_exploration_level c |}.

Definition set_osrm_port (v : string) (c : cl_args_t) : cl_args_t :=
  {| osrm_address := osrm_address c; geometry := geometry c;
     input_file := input_file c; output_file := output_file c; osrm_port := v;
     use_libosrm := use_libosrm c; log_level := log_level c; input := input c;
     nb_threads := nb_threads c; osrm_profile := osrm_profile c;
     exploration_level := exploration_level c;
     max_exploration_level := max_exploration_level c |}.

Definition set_use_libosrm (v : bool) (c : cl_args_t) : cl_args_t :=
  {| osrm_address := osrm_address c; geometry := geometry c;
     input_file := input_file c; output_file := output_file c;
     osrm_port := osrm_port c; use_libosrm := v; log_level := log_level c;
     input := input c; nb_threads := nb_threads c;
     osrm_profile := osrm_profile c;
     exploration_level := exploration_level c;
     max_exploration_level := max_exploration_level c |}.

Definition set_log_level (v : severity_level) (c : cl_args_t) : cl_args_t :=
  {| osrm_address := osrm_address c; geometry := geometry c;
     input_file := input_file c; output_file := output_file c;
     osrm_port := osrm_port c; use_libosrm := use_libosrm c; log_level := v;
     input := input c; nb_threads := nb_threads c;
     osrm_profile := osrm_profile c;
     exploration_level := exploration_level c;
     max_exploration_level := max_exploration_level c |}.

Definition set_input (v : string) (c : cl_args_t) : cl_args_t :=
  {| osrm_address := osrm_address c; geometry := geometry c;
     input_file := input_file c; output_file := output_file c;
     osrm_port := osrm_port c; use_libosrm := use_libosrm c;
     log_level := log_level c; input := v; nb_threads := nb_threads c;
     osrm_profile := osrm_profile c;
     exploration_level := exploration_level c;
     max_exploration_level := max_exploration_level c |}.

Definition set_nb_threads (v : Z) (c : cl_args_t) : cl_args_t :=
  {| osrm_address := osrm_address c; geometry := geometry c;
     input_file := input_file c; output_file := output_file c;
     osrm_port := osrm_port c; use_libosrm := use_libosrm c;
     log_level := log_level c; input := input c; nb_threads := v;
     osrm_profile := osrm_profile c;
     exploration_level := exploration_level c;
     max_exploration_level := max_exploration_level c |}.

Definition set_osrm_profile (v : string) (c : cl_args_t) : cl_args_t :=
  {| osrm_address := osrm_address c; geometry := geometry c;
     input_file := input_file c; output_file := output_file c;
     osrm_port := osrm_port c; use_libosrm := use_libosrm c;
     log_level := log_level c; input := input c; nb_threads := nb_threads c;
     osrm_profile := v; exploration_level := exploration_level c;
     max_exploration_level := max_exploration_level c |}.

Definition set_exploration_level (v : Z) (c : cl_args_t) : cl_args_t :=
  {| osrm_address := osrm_address c; geometry := geometry c;
     input_file := input_file c; output_file := output_file c;
     osrm_port := osrm_port c; use_libosrm := use_libosrm c;
     log_level := log_level c; input := input c; nb_threads := nb_threads c;
     osrm_profile := osrm_profile c; exploration_level := v;
     max_exploration_level := max_exploration_level c |}.

(* ================================================================== *)
(** ** Observable behaviour *)

(** The events are what [main] itself does.  The lines [getopt] prints
    for an unknown option or a missing argument are added to them by
    [process] further down; the log records of the collaborators and the
    inside of [write_to_json] (taken as a call that returns) are not
    modelled. *)

(** What the external collaborators [parse] and [input::solve] can do:
    return, throw a [custom_exception] ([utils/exceptions.h]) or throw
    some other [std::exception]. *)
Inductive outcome (A : Type) :=
| returns (a : A)
| throws_custom (message : string)
| throws_std (what : string).

Arguments returns {A} a.
Arguments throws_custom {A} message.
Arguments throws_std {A} what.

(** The first argument of [write_to_json]: a solution computed by the
    solver, or the error solution built from [{code, message}]. *)
Inductive document (solution_t : Type) :=
| doc_solution (sol : solution_t)
| doc_error (code : Z) (message : string).

Arguments doc_solution {solution_t} sol.
Arguments doc_error {solution_t} code message.

Inductive event (solution_t : Type) :=
| ev_cout (text : string)                 (* std::cout << text << std::endl *)
| ev_cerr (text : string)                 (* std::cerr << text << std::endl *)
| ev_ifstream (path : string)             (* the input file is opened and read *)
| ev_set_filter (level : severity_level)  (* minimum severity of the log core *)
| ev_parse (args : cl_args_t)             (* parse(cl_args) is called *)
| ev_solve (exploration_level nb_threads : Z)
| ev_write_to_json (doc : document solution_t) (geometry : bool)
    (output_file : string).

Arguments ev_cout {solution_t} text.
Arguments ev_cerr {solution_t} text.
Arguments ev_ifstream {solution_t} path.
Arguments ev_set_filter {solution_t} level.
Arguments ev_parse {solution_t} args.
Arguments ev_solve {solution_t} exploration_level nb_threads.
Arguments ev_write_to_json {solution_t} doc geometry output_file.

(** How the process ends: [exit(status)] or a return from [main] with
    that status, or [std::terminate] on an exception nothing catches. *)
Inductive termination := exited (status : Z) | terminated.

(** A computation performs events and then either yields a value or ends
    the process. *)
Definition M (solution_t A : Type) : Type :=
  list (event solution_t) * (A + termination).

Definition pure {solution_t A} (a : A) : M solution_t A := ([], inl a).

Definition emit {solution_t} (e : event solution_t) : M solution_t unit :=
  ([e], inl tt).

Definition exit {solution_t A} (status : Z) : M solution_t A :=
  ([], inr (exited status)).

Definition terminate {solution_t A} : M solution_t A := ([], inr terminated).

Definition bind {solution_t A B} (m : M solution_t A)
    (k : A -> M solution_t B) : M solution_t B :=
  match m with
  | (es, inr t) => (es, inr t)
  | (es, inl a) => let (es', r) := k a in ((es ++ es')%list, r)
  end.

Notation "x <- m ;; k" := (bind m (fun x => k))
  (at level 61, m at next level, right associativity).
Notation "m ;; k" := (bind m (fun _ => k))
  (at level 61, right associativity).

(** The run of a whole program: the events and the termination. *)
Definition run {solution_t} (m : M solution_t termination)
  : list (event solution_t) * termination :=
  match m with
  | (es, inl t) => (es, t)
  | (es, inr t) => (es, t)
  end.

(* ================================================================== *)
(** ** The program *)

Definition optString : string := "a:gi:lm:o:p:t:vVx:h?".

(** The text [display_usage] builds. *)
Definition usage (version : string) : string :=
  "VROOM Copyright (C) 2015-2018, Julien Coupey" ++ nl
  ++ "Version: " ++ version ++ nl
  ++ "Usage:" ++ nl ++ tab ++ "vroom [OPTION]... " ++ dquote ++ "INPUT" ++ dquote
  ++ nl ++ tab ++ "vroom [OPTION]... -i FILE" ++ nl
  ++ "Options:" ++ nl
  ++ tab ++ "-a ADDRESS (=" ++ dquote ++ "0.0.0.0" ++ dquote ++ ")" ++ tab
  ++ " OSRM server address" ++ nl
  ++ tab ++ "-p PORT (=5000)," ++ tab ++ " OSRM listening port" ++ nl
  ++ tab ++ "-g," ++ tab ++ tab ++ tab
  ++ " add detailed route geometry and indicators" ++ nl
  ++ tab ++ "-i FILE," ++ tab ++ tab
  ++ " read input from FILE rather than from stdin" ++ nl
  ++ tab ++ "-l," ++ tab ++ tab ++ tab
  ++ " use libosrm rather than osrm-routed" ++ nl
  ++ tab ++ "-o OUTPUT," ++ tab ++ tab ++ " output file name" ++ nl
  ++ tab ++ "-t THREADS (=4)," ++ tab ++ " number of threads to use" ++ nl
  ++ tab ++ "-v," ++ tab ++ tab ++ " turn on verbose output" ++ nl
  ++ tab ++ "-V," ++ tab ++ tab
  ++ " turn on verbose output with all details" ++ nl
  ++ tab ++ "-x EXPLORE (=1)," ++ tab ++ " exploration level to use (0..5)".

(** The two strings the flag loop keeps next to [cl_args]. *)
Record scan_state := {
  cl_args : cl_args_t;
  nb_threads_arg : string;
  exploration_level_arg : string
}.

Definition on_cl_args (f : cl_args_t -> cl_args_t) (st : scan_state)
  : scan_state :=
  {| cl_args := f (cl_args st);
     nb_threads_arg := nb_threads_arg st;
     exploration_level_arg := exploration_level_arg st |}.

(** Lines 118-122: the body of the first [try] block.  The second
    conversion is not reached when the first one throws. *)
Definition numeric_conversion (c : cl_args_t)
    (nb_threads_arg exploration_level_arg : string)
  : Stoul.error + cl_args_t :=
  match Stoul.stoul nb_threads_arg with
  | inl e => inl e
  | inr t =>
      let c := set_nb_threads (to_unsigned t) c in
      match Stoul.stoul exploration_level_arg with
      | inl e => inl e
      | inr x =>
          let c := set_exploration_level (to_unsigned x) c in
          inr (set_exploration_level
                 (Z.min (exploration_level c) (max_exploration_level c)) c)
      end
  end.

(** The file contents read through [ifs.rdbuf()]; a file that cannot be
    opened leaves the buffer empty. *)
Definition slurp (files : string -> option string) (path : string) : string :=
  match files path with
  | Some contents => contents
  | None => ""
  end.

Section Program.

Variables input_t solution_t : Type.

(** Everything [main] depends on besides its argument vector. *)
Record environment := {
  LIBOSRM : bool;                       (* the build has the libosrm handler *)
  get_version : string;                 (* utils/version.h *)
  default_log_level : severity_level;   (* set by the cl_args_t constructor *)
  POSIXLY_CORRECT : bool;               (* environment variable read by getopt *)
  files : string -> option string;      (* readable files and their contents *)
  parse : cl_args_t -> outcome input_t;
  solve : input_t -> Z -> Z -> outcome solution_t
}.

Variable env : environment.

(** [display_usage] prints the usage text and calls [exit(0)]: it does not
    return. *)
Definition display_usage {A : Type} : M solution_t A :=
  emit (ev_cout (usage (get_version env))) ;; exit 0.

(** The body of the [switch] for one value returned by [getopt]. *)
Definition switch (st : scan_state) (r : Getopt.ret)
  : M solution_t scan_state :=
  let (opt, optarg) := r in
  if Ascii.eqb opt "a" then pure (on_cl_args (set_osrm_address optarg) st)
  else if Ascii.eqb opt "g" then pure (on_cl_args (set_geometry true) st)
  else if Ascii.eqb opt "h" then display_usage
  else if Ascii.eqb opt "i" then pure (on_cl_args (set_input_file optarg) st)
  else if Ascii.eqb opt "l" then pure (on_cl_args (set_use_libosrm true) st)
  else if Ascii.eqb opt "m" then pure (on_cl_args (set_osrm_profile optarg) st)
  else if Ascii.eqb opt "o" then pure (on_cl_args (set_output_file optarg) st)
  else if Ascii.eqb opt "p" then pure (on_cl_args (set_osrm_port optarg) st)
  else if Ascii.eqb opt "t" then
    pure {| cl_args := cl_args st; nb_threads_arg := optarg;
            exploration_level_arg := exploration_level_arg st |}
  else if Ascii.eqb opt "v" then pure (on_cl_args (set_log_level info) st)
  else if Ascii.eqb opt "V" then pure (on_cl_args (set_log_level trace) st)
  else if Ascii.eqb opt "x" then
    pure {| cl_args := cl_args st; nb_threads_arg := nb_threads_arg st;
            exploration_level_arg := optarg |}
  else pure st.

(** The [while (opt != -1)] loop over the values [getopt] returns. *)
Fixpoint flag_loop (rs : list Getopt.ret) (st : scan_state)
  : M solution_t scan_state :=
  match rs with
  | [] => pure st
  | r :: rs' => st' <- switch st r ;; flag_loop rs' st'
  end.

(** Lines 115-128. *)
Definition validate_numerics (st : scan_state) : M solution_t cl_args_t :=
  match numeric_conversion (cl_args st) (nb_threads_arg st)
          (exploration_level_arg st) with
  | inr c => pure c
  | inl _ =>
      let message := "Wrong numerical value." in
      emit (ev_cerr ("[Error] " ++ message)) ;;
      emit (ev_write_to_json (doc_error 1 message) false
              (output_file (cl_args st))) ;;
      exit 1
  end.

(** Lines 130-143; [operands] are [argv[optind ..]], so [argc == optind]
    when there is none. *)
Definition acquire_input (operands : list string) (c : cl_args_t)
  : M solution_t cl_args_t :=
  if String.eqb (input_file c) "" then
    match operands with
    | [] => display_usage
    | a :: _ => pure (set_input a c)
    end
  else
    emit (ev_ifstream (input_file c)) ;;
    pure (set_input (slurp (files env) (input_file c)) c).

(** Lines 149-172: the second [try] block and its handlers.  The handler
    for [std::exception] exists only in a build with LIBOSRM; without it
    such an exception leaves [main]. *)
Definition build_and_solve (c : cl_args_t) : M solution_t termination :=
  let failed (message : string) : M solution_t termination :=
    emit (ev_cerr ("[Error] " ++ message)) ;;
    emit (ev_write_to_json (doc_error 1 message) false (output_file c)) ;;
    exit 1 in
  let uncaught (what : string) : M solution_t termination :=
    if LIBOSRM env then failed what else terminate in
  emit (ev_parse c) ;;
  match parse env c with
  | throws_custom message => failed message
  | throws_std what => uncaught what
  | returns problem_instance =>
      emit (ev_solve (exploration_level c) (nb_threads c)) ;;
      match solve env problem_instance (exploration_level c) (nb_threads c) with
      | throws_custom message => failed message
      | throws_std what => uncaught what
      | returns sol =>
          emit (ev_write_to_json (doc_solution sol) (geometry c)
                  (output_file c)) ;;
          pure (exited 0)
      end
  end.

(** [main]; [args] is the argument vector after [argv[0]]. *)
Definition main (args : list string) : list (event solution_t) * termination :=
  let (rs, operands) :=
    Getopt.getopt_all optString (POSIXLY_CORRECT env) args in
  let c0 := default_cl_args (default_log_level env) in
  run (
    st <- flag_loop rs
            {| cl_args := c0;
               nb_threads_arg := to_string (nb_threads c0);
               exploration_level_arg := to_string (exploration_level c0) |} ;;
    c <- validate_numerics st ;;
    c <- acquire_input operands c ;;
    emit (ev_set_filter (log_level c)) ;;
    build_and_solve c).

End Program.

Arguments LIBOSRM {input_t solution_t} e.
Arguments get_version {input_t solution_t} e.
Arguments default_log_level {input_t solution_t} e.
Arguments POSIXLY_CORRECT {input_t solution_t} e.
Arguments files {input_t solution_t} e.
Arguments parse {input_t solution_t} e.
Arguments solve {input_t solution_t} e.
Arguments display_usage {input_t solution_t} env {A}.
Arguments switch {input_t solution_t} env st r.
Arguments flag_loop {input_t solution_t} env rs st.
Arguments validate_numerics {solution_t} st.
Arguments acquire_input {input_t solution_t} env operands c.
Arguments build_and_solve {input_t solution_t} env c.
Arguments main {input_t solution_t} env args.

(* ================================================================== *)
(** ** Vocabulary of the properties *)

(** The values returned by [getopt] for an argument vector, and the
    operands it leaves at [argv[optind ..]]. *)
Definition options {input_t solution_t} (env : environment input_t solution_t)
    (args : list string) : list Getopt.ret :=
  fst (Getopt.getopt_all optString (POSIXLY_CORRECT env) args).

Definition operands {input_t solution_t} (env : environment input_t solution_t)
    (args : list string) : list string :=
  snd (Getopt.getopt_all optString (POSIXLY_CORRECT env) args).

(** The flag [c] was returned at least once. *)
Definition has_flag (c : ascii) (rs : list Getopt.ret) : bool :=
  existsb (fun r => Ascii.eqb (fst r) c) rs.

(** The argument of the last occurrence of option [c], or [d] when the
    option does not occur. *)
Definition last_optarg (c : ascii) (rs : list Getopt.ret) (d : string) : string :=
  match find (fun r => Ascii.eqb (fst r) c) (rev rs) with
  | Some r => snd r
  | None => d
  end.

(** The severity chosen by the last of the flags -v and -V, or [d] when
    neither occurs. *)
Definition last_verbosity (rs : list Getopt.ret) (d : severity_level)
  : severity_level :=
  match find (fun r => Ascii.eqb (fst r) "v" || Ascii.eqb (fst r) "V") (rev rs) with
  | Some r => if Ascii.eqb (fst r) "v" then info else trace
  | None => d
  end.

Module StoulFacts.

(** The digits [std::stoul] converts: those that follow the white space
    and the sign. *)
Definition numeral (s : string) : string :=
  Stoul.digit_run (snd (Stoul.take_sign (Stoul.skip_space s))).

(** A text [std::stoul] throws on: it has no digit where the number is
    expected, or its digits exceed the range of [unsigned long]. *)
Definition unconvertible (s : string) : bool :=
  match numeral s with
  | EmptyString => true
  | ds => ULONG_MAX <? Stoul.accumulate 0 ds
  end.

End StoulFacts.

(** A valid unsigned integer, as a reader of the command line means it: a
    non-empty text made of decimal digits only, whose value fits the
    [unsigned] field it is stored in. *)
Fixpoint all_digits (s : string) : bool :=
  match s with
  | EmptyString => true
  | String c rest => isdigit c && all_digits rest
  end.

Definition valid_unsigned_integer (s : string) : bool :=
  negb (String.eqb s "") && all_digits s
  && (Stoul.accumulate 0 s <=? UINT_MAX).

(** The events that put a document in front of the user: the usage text
    on standard output and the calls of [write_to_json]. *)
Definition is_document {solution_t} (e : event solution_t) : bool :=
  match e with
  | ev_cout _ => true
  | ev_write_to_json _ _ _ => true
  | _ => false
  end.

Definition documents {solution_t} (es : list (event solution_t))
  : list (event solution_t) :=
  filter is_document es.

(** The state of the flag loop before the first call of [getopt]. *)
Definition initial_state {input_t solution_t}
    (env : environment input_t solution_t) : scan_state :=
  let c0 := default_cl_args (default_log_level env) in
  {| cl_args := c0;
     nb_threads_arg := to_string (nb_threads c0);
     exploration_level_arg := to_string (exploration_level c0) |}.

(** The state one iteration of the loop leaves when it does not leave the
    process, and the state after all of them. *)
Definition switch_value {input_t solution_t}
    (env : environment input_t solution_t) (st : scan_state) (r : Getopt.ret)
  : scan_state :=
  match snd (switch env st r) with
  | inl st' => st'
  | inr _ => st
  end.

Definition flags_state {input_t solution_t}
    (env : environment input_t solution_t) (args : list string) : scan_state :=
  fold_left (switch_value env) (options env args) (initial_state env).

(** The configuration the numeric conversion is run on, with its result. *)
Definition validated {input_t solution_t}
    (env : environment input_t solution_t) (args : list string)
  : Stoul.error + cl_args_t :=
  let st := flags_state env args in
  numeric_conversion (cl_args st) (nb_threads_arg st) (exploration_level_arg st).

(** The problem text according to the rule of the input sources: the
    contents of the file named by the last -i when that name is not empty,
    otherwise the first operand, if there is one. *)
Definition payload {input_t solution_t}
    (env : environment input_t solution_t) (args : list string) : option string :=
  let path := last_optarg "i" (options env args) "" in
  if String.eqb path "" then hd_error (operands env args)
  else Some (slurp (files env) path).

(** The build handles every exception the collaborators can throw: it has
    the libosrm handler, or the collaborators only throw
    [custom_exception]. *)
Definition every_exception_handled {input_t solution_t}
    (env : environment input_t solution_t) : Prop :=
  LIBOSRM env = true \/
  ((forall c what, parse env c <> throws_std what) /\
   (forall p x t what, solve env p x t <> throws_std what)).

(** The events of a path that displays the usage text, and of a path that
    reports an error. *)
Definition usage_exit {input_t solution_t}
    (env : environment input_t solution_t)
  : list (event solution_t) * termination :=
  ([ev_cout (usage (get_version env))], exited 0).

Definition error_exit {solution_t} (message output : string)
  : list (event solution_t) * termination :=
  ([ev_cerr ("[Error] " ++ message);
    ev_write_to_json (doc_error 1 message) false output], exited 1).

(** The opening of the input file, when there is one to open. *)
Definition reading {input_t solution_t}
    (env : environment input_t solution_t) (args : list string)
  : list (event solution_t) :=
  let path := last_optarg "i" (options env args) "" in
  if String.eqb path "" then [] else [ev_ifstream path].

(** The collaborator calls of a run that reaches them: [solve] is called
    when [parse] has returned. *)
Definition called {input_t solution_t}
    (env : environment input_t solution_t) (c : cl_args_t)
  : list (event solution_t) :=
  match parse env c with
  | returns _ => [ev_parse c; ev_solve (exploration_level c) (nb_threads c)]
  | _ => [ev_parse c]
  end.

(** The events the second [try] block and its handlers can perform on the
    options [c]. *)
Definition collaborator_event {solution_t} (c : cl_args_t)
    (e : event solution_t) : Prop :=
  match e with
  | ev_parse c' => c' = c
  | ev_solve x t => x = exploration_level c /\ t = nb_threads c
  | ev_cerr _ => True
  | ev_write_to_json (doc_solution _) g out =>
      g = geometry c /\ out = output_file c
  | ev_write_to_json (doc_error code _) g out =>
      code = 1 /\ g = false /\ out = output_file c
  | _ => False
  end.

(** Sample environments, used to run the program on concrete vectors. *)
Module Samples.

(** Both collaborators succeed; no file is readable. *)
Definition solving : environment unit string :=
  {| LIBOSRM := false; get_version := "1.2.0"; default_log_level := error;
     POSIXLY_CORRECT := false; files := fun _ => None;
     parse := fun _ => returns tt;
     solve := fun _ _ _ => returns "solution" |}.

(** [parse] rejects the problem with a [custom_exception]. *)
Definition rejecting : environment unit string :=
  {| LIBOSRM := false; get_version := "1.2.0"; default_log_level := error;
     POSIXLY_CORRECT := false; files := fun _ => None;
     parse := fun _ => throws_custom "Error while parsing.";
     solve := fun _ _ _ => returns "solution" |}.

(** A build without LIBOSRM in which [parse] throws an exception that is
    not a [custom_exception]. *)
Definition failing_backend : environment unit string :=
  {| LIBOSRM := false; get_version := "1.2.0"; default_log_level := error;
     POSIXLY_CORRECT := false; files := fun _ => None;
     parse := fun _ => throws_std "std::bad_alloc";
     solve := fun _ _ _ => returns "solution" |}.

(** One readable file. *)
Definition with_file : environment unit string :=
  {| LIBOSRM := false; get_version := "1.2.0"; default_log_level := error;
     POSIXLY_CORRECT := false;
     files := fun path =>
       if String.eqb path "problem.json" then Some "{from file}" else None;
     parse := fun _ => returns tt;
     solve := fun _ _ _ => returns "solution" |}.

End Samples.

(** The environment in which the collaborators throw a [custom_exception]
    with the same text wherever they throw another [std::exception] in
    [env]. *)
Definition custom_only {input_t solution_t}
    (env : environment input_t solution_t) : environment input_t solution_t :=
  {| LIBOSRM := LIBOSRM env;
     get_version := get_version env;
     default_log_level := default_log_level env;
     POSIXLY_CORRECT := POSIXLY_CORRECT env;
     files := files env;
     parse := fun c =>
       match parse env c with
       | throws_std what => throws_custom what
       | o => o
       end;
     solve := fun p x t =>
       match solve env p x t with
       | throws_std what => throws_custom what
       | o => o
       end |}.

(** The element of the argument vector that holds the single flag [c]. *)
Definition flag_element (c : ascii) : string := String "-" (String c "").

(** Whether a text starts with a decimal digit. *)
Definition starts_with_digit (s : string) : bool :=
  match s with
  | String c _ => isdigit c
  | EmptyString => false
  end.

(** A numeral: a non-empty text made of decimal digits only. *)
Definition is_numeral (s : string) : bool :=
  negb (String.eqb s "") && all_digits s.

(** *** The process with the lines of [getopt]

    [main] above lists the events of [main]'s own statements.  The calls
    of [getopt] in the flag loop print on the diagnostic stream too; the
    definitions below put these lines where they occur. *)

(** The calls of [getopt] for an argument vector. *)
Definition calls {input_t solution_t} (env : environment input_t solution_t)
    (args : list string) : list Getopt.call :=
  fst (Getopt.getopt_calls optString (POSIXLY_CORRECT env) args).

(** What the process shows: a line printed by [getopt], or an event of
    [main]. *)
Definition observation (solution_t : Type) : Type :=
  (Getopt.diagnostic + event solution_t)%type.

(** The flag loop, call by call: [getopt] prints its line, if any, and
    returns; then the [switch] runs on the value returned. *)
Fixpoint observed_flag_loop {input_t solution_t}
    (env : environment input_t solution_t) (cs : list Getopt.call)
    (st : scan_state)
  : list (observation solution_t) * (scan_state + termination) :=
  match cs with
  | [] => ([], inl st)
  | (r, printed) :: cs' =>
      let line : list (observation solution_t) :=
        match printed with Some d => [inl d] | None => [] end in
      match switch env st r with
      | (es, inr t) => ((line ++ map inr es)%list, inr t)
      | (es, inl st') =>
          let (os, res) := observed_flag_loop env cs' st' in
          ((line ++ map inr es ++ os)%list, res)
      end
  end.

(** Lines 115-175: what [main] does once the flag loop has ended. *)
Definition after_flags {input_t solution_t}
    (env : environment input_t solution_t) (operands : list string)
    (st : scan_state) : M solution_t termination :=
  c <- validate_numerics st ;;
  c <- acquire_input env operands c ;;
  emit (ev_set_filter (log_level c)) ;;
  build_and_solve env c.

(** The whole process: the flag loop with the lines of [getopt], then the
    rest of [main]. *)
Definition process {input_t solution_t}
    (env : environment input_t solution_t) (args : list string)
  : list (observation solution_t) * termination :=
  let (cs, operands) :=
    Getopt.getopt_calls optString (POSIXLY_CORRECT env) args in
  match observed_flag_loop env cs (initial_state env) with
  | (os, inr t) => (os, t)
  | (os, inl st) =>
      let (es, t) := run (after_flags env operands st) in
      ((os ++ map inr es)%list, t)
  end.

(** The lines printed by the calls the flag loop makes: it makes no call
    after one that returned the help flag. *)
Fixpoint printed_before_help (cs : list Getopt.call)
  : list Getopt.diagnostic :=
  match cs with
  | [] => []
  | (r, printed) :: cs' =>
      (match printed with Some d => [d] | None => [] end
       ++ if Ascii.eqb (fst r) "h" then [] else printed_before_help cs')%list
  end.

(** Further sample environments. *)
Module MoreSamples.

(** A build with LIBOSRM in which [solve] throws an exception that is not
    a [custom_exception]. *)
Definition libosrm_failing : environment unit string :=
  {| LIBOSRM := true; get_version := "1.2.0"; default_log_level := error;
     POSIXLY_CORRECT := false; files := fun _ => None;
     parse := fun _ => returns tt;
     solve := fun _ _ _ => throws_std "osrm: datastore is not running" |}.

(** [solve] fails with a [custom_exception]. *)
Definition unsolvable : environment unit string :=
  {| LIBOSRM := false; get_version := "1.2.0"; default_log_level := error;
     POSIXLY_CORRECT := false; files := fun _ => None;
     parse := fun _ => returns tt;
     solve := fun _ _ _ => throws_custom "Unfound route(s)" |}.

End MoreSamples.

(* ================================================================== *)
(** ** The library routines on small inputs *)

Example getopt_grouped_flags_and_attached_argument :
  Getopt.getopt_all optString false ["-gvx3"; "{}"] =
    ([("g"%char, ""); ("v"%char, ""); ("x"%char, "3")], ["{}"]).
Proof. reflexivity. Qed.

Example getopt_permutes_operands :
  Getopt.getopt_all optString false ["{}"; "-t"; "2"; "more"] =
    ([("t"%char, "2")], ["{}"; "more"]).
Proof. reflexivity. Qed.

Example getopt_posixly_correct_stops_at_operand :
  Getopt.getopt_all optString true ["-g"; "{}"; "-t"; "2"] =
    ([("g"%char, "")], ["{}"; "-t"; "2"]).
Proof. reflexivity. Qed.

Example getopt_missing_argument :
  Getopt.getopt_all optString false ["-g"; "-o"] =
    ([("g"%char, ""); ("?"%char, "")], []).
Proof. reflexivity. Qed.

Example getopt_unknown_option :
  Getopt.getopt_all optString false ["-zg"; "{}"] =
    ([("?"%char, ""); ("g"%char, "")], ["{}"]).
Proof. reflexivity. Qed.

Example getopt_double_dash_ends_options :
  Getopt.getopt_all optString false ["{}"; "-g"; "--"; "-h"] =
    ([("g"%char, "")], ["{}"; "-h"]).
Proof. reflexivity. Qed.

Example getopt_argument_may_look_like_an_option :
  Getopt.getopt_all optString false ["-a"; "-h"; "{}"] =
    ([("a"%char, "-h")], ["{}"]).
Proof. reflexivity. Qed.

Example stoul_plain : Stoul.stoul "42" = inr 42.
Proof. reflexivity. Qed.

Example stoul_space_sign_and_trailing_text : Stoul.stoul "  +7 threads" = inr 7.
Proof. reflexivity. Qed.

Example stoul_empty : Stoul.stoul "" = inl Stoul.invalid_argument.
Proof. reflexivity. Qed.

Example stoul_no_digit : Stoul.stoul "abc" = inl Stoul.invalid_argument.
Proof. reflexivity. Qed.

Example stoul_minus_one : Stoul.stoul "-1" = inr ULONG_MAX.
Proof. reflexivity. Qed.

Example stoul_largest : Stoul.stoul "18446744073709551615" = inr ULONG_MAX.
Proof. reflexivity. Qed.

Example stoul_too_large :
  Stoul.stoul "18446744073709551616" = inl Stoul.out_of_range.
Proof. reflexivity. Qed.

Example to_string_defaults : to_string 4 = "4" /\ to_string 1 = "1".
Proof. split; reflexivity. Qed.

(* ================================================================== *)
(** ** The flag loop *)

Section FlagLoop.

Context {input_t solution_t : Type}.
Variable env : environment input_t solution_t.

Ltac case_opt o :=
  repeat match goal with
  | |- context [Ascii.eqb o ?c] =>
      let E := fresh "E" in
      destruct (Ascii.eqb o c) eqn:E;
      [ apply Ascii.eqb_eq in E; subst o; cbn | ]
  end.

Lemma switch_cases (st : scan_state) (r : Getopt.ret) :
  switch env st r =
    if Ascii.eqb (fst r) "h"
    then ([ev_cout (usage (get_version env))], inr (exited 0))
    else ([], inl (switch_value env st r)).
Proof.
  destruct r as [o a]. unfold switch_value, switch. cbn [fst].
  case_opt o; reflexivity.
Qed.

Lemma flag_loop_cases (rs : list Getopt.ret) (st : scan_state) :
  flag_loop env rs st =
    if has_flag "h" rs
    then ([ev_cout (usage (get_version env))], inr (exited 0))
    else ([], inl (fold_left (switch_value env) rs st)).
Proof.
  revert st. induction rs as [|r rs IH]; intro st; [reflexivity|].
  cbn [flag_loop has_flag existsb fold_left]. rewrite switch_cases.
  destruct (Ascii.eqb (fst r) "h"); [reflexivity|].
  cbn [orb]. unfold bind at 1. rewrite IH. fold (has_flag "h" rs).
  destruct (has_flag "h" rs); reflexivity.
Qed.

Lemma find_snoc {A : Type} (f : A -> bool) (l : list A) (a : A) :
  find f (l ++ [a])%list =
    match find f l with
    | Some b => Some b
    | None => if f a then Some a else None
    end.
Proof.
  induction l as [|b l IH]; [reflexivity|].
  cbn. destruct (f b); [reflexivity|exact IH].
Qed.

Lemma last_optarg_cons (c : ascii) (r : Getopt.ret) (rs : list Getopt.ret)
    (d : string) :
  last_optarg c (r :: rs) d =
    last_optarg c rs (if Ascii.eqb (fst r) c then snd r else d).
Proof.
  unfold last_optarg. cbn [rev]. rewrite find_snoc.
  destruct (find (fun r0 => Ascii.eqb (fst r0) c) (rev rs)); [reflexivity|].
  destruct (Ascii.eqb (fst r) c); reflexivity.
Qed.

Lemma last_verbosity_cons (r : Getopt.ret) (rs : list Getopt.ret)
    (d : severity_level) :
  last_verbosity (r :: rs) d =
    last_verbosity rs
      (if Ascii.eqb (fst r) "v" then info
       else if Ascii.eqb (fst r) "V" then trace else d).
Proof.
  unfold last_verbosity. cbn [rev]. rewrite find_snoc.
  destruct (find (fun r0 => Ascii.eqb (fst r0) "v" || Ascii.eqb (fst r0) "V")
              (rev rs)); [reflexivity|].
  destruct (Ascii.eqb (fst r) "v") eqn:Ev; cbn [orb]; [now rewrite Ev|].
  destruct (Ascii.eqb (fst r) "V"); [now rewrite Ev|reflexivity].
Qed.

(** What the loop leaves in each variable, in terms of the occurrences of
    the flags. *)
Lemma fold_nb_threads_arg (rs : list Getopt.ret) (st : scan_state) :
  nb_threads_arg (fold_left (switch_value env) rs st) =
    last_optarg "t" rs (nb_threads_arg st).
Proof.
  revert st. induction rs as [|[o a] rs IH]; intro st; [reflexivity|].
  cbn [fold_left]. rewrite IH, last_optarg_cons. f_equal.
  unfold switch_value, switch. cbn [fst snd]. case_opt o; reflexivity.
Qed.

Lemma fold_exploration_level_arg (rs : list Getopt.ret) (st : scan_state) :
  exploration_level_arg (fold_left (switch_value env) rs st) =
    last_optarg "x" rs (exploration_level_arg st).
Proof.
  revert st. induction rs as [|[o a] rs IH]; intro st; [reflexivity|].
  cbn [fold_left]. rewrite IH, last_optarg_cons. f_equal.
  unfold switch_value, switch. cbn [fst snd]. case_opt o; reflexivity.
Qed.

Lemma fold_output_file (rs : list Getopt.ret) (st : scan_state) :
  output_file (cl_args (fold_left (switch_value env) rs st)) =
    last_optarg "o" rs (output_file (cl_args st)).
Proof.
  revert st. induction rs as [|[o a] rs IH]; intro st; [reflexivity|].
  cbn [fold_left]. rewrite IH, last_optarg_cons. f_equal.
  unfold switch_value, switch. cbn [fst snd]. case_opt o; reflexivity.
Qed.

Lemma fold_input_file (rs : list Getopt.ret) (st : scan_state) :
  input_file (cl_args (fold_left (switch_value env) rs st)) =
    last_optarg "i" rs (input_file (cl_args st)).
Proof.
  revert st. induction rs as [|[o a] rs IH]; intro st; [reflexivity|].
  cbn [fold_left]. rewrite IH, last_optarg_cons. f_equal.
  unfold switch_value, switch. cbn [fst snd]. case_opt o; reflexivity.
Qed.

Lemma fold_geometry (rs : list Getopt.ret) (st : scan_state) :
  geometry (cl_args (fold_left (switch_value env) rs st)) =
    geometry (cl_args st) || has_flag "g" rs.
Proof.
  revert st. induction rs as [|[o a] rs IH]; intro st.
  - cbn. now rewrite orb_false_r.
  - cbn [fold_left has_flag existsb]. rewrite IH. fold (has_flag "g" rs).
    rewrite orb_assoc. f_equal.
    unfold switch_value, switch. cbn [fst snd].
    case_opt o; cbn; rewrite ?orb_false_r, ?orb_true_r; reflexivity.
Qed.

Lemma fold_log_level (rs : list Getopt.ret) (st : scan_state) :
  log_level (cl_args (fold_left (switch_value env) rs st)) =
    last_verbosity rs (log_level (cl_args st)).
Proof.
  revert st. induction rs as [|[o a] rs IH]; intro st; [reflexivity|].
  cbn [fold_left]. rewrite IH, last_verbosity_cons. f_equal.
  unfold switch_value, switch. cbn [fst snd]. case_opt o; reflexivity.
Qed.

Lemma fold_max_exploration_level (rs : list Getopt.ret) (st : scan_state) :
  max_exploration_level (cl_args (fold_left (switch_value env) rs st)) =
    max_exploration_level (cl_args st).
Proof.
  revert st. induction rs as [|[o a] rs IH]; intro st; [reflexivity|].
  cbn [fold_left]. rewrite IH.
  unfold switch_value, switch. cbn [fst snd]. case_opt o; reflexivity.
Qed.

End FlagLoop.

(* ================================================================== *)
(** ** The numeric conversion *)

Lemma numeric_conversion_inr (c c' : cl_args_t) (t x : string) :
  numeric_conversion c t x = inr c' ->
  exists w v,
    Stoul.stoul t = inr w /\ Stoul.stoul x = inr v /\
    c' = set_exploration_level
           (Z.min (to_unsigned v) (max_exploration_level c))
           (set_exploration_level (to_unsigned v)
              (set_nb_threads (to_unsigned w) c)).
Proof.
  unfold numeric_conversion.
  destruct (Stoul.stoul t) as [e|w]; [discriminate|].
  destruct (Stoul.stoul x) as [e|v]; [discriminate|].
  intro H. injection H as <-. now exists w, v.
Qed.

Lemma stoul_throws_iff (s : string) :
  (exists e, Stoul.stoul s = inl e) <-> StoulFacts.unconvertible s = true.
Proof.
  unfold Stoul.stoul, StoulFacts.unconvertible, StoulFacts.numeral.
  destruct (Stoul.take_sign (Stoul.skip_space s)) as [negative rest].
  cbn [snd]. destruct (Stoul.digit_run rest) as [|d ds] eqn:E.
  - split; [reflexivity|]. intros _. now eexists.
  - destruct (ULONG_MAX <? Stoul.accumulate 0 (String d ds)).
    + split; [reflexivity|]. intros _. now eexists.
    + split; [|discriminate]. intros [e H]. destruct negative; discriminate.
Qed.

Lemma stoul_converts_iff (s : string) :
  (exists v, Stoul.stoul s = inr v) <-> StoulFacts.unconvertible s = false.
Proof.
  destruct (StoulFacts.unconvertible s) eqn:E.
  - apply stoul_throws_iff in E. destruct E as [e E]. rewrite E.
    split; [intros [v H]; discriminate | discriminate].
  - split; [reflexivity|]. intros _.
    destruct (Stoul.stoul s) as [e|v] eqn:H; [|now exists v].
    assert (StoulFacts.unconvertible s = true) as E'
      by (apply stoul_throws_iff; now exists e).
    congruence.
Qed.

Lemma digit_is_no_space_nor_sign (c : ascii) (rest : string) :
  isdigit c = true ->
  Stoul.skip_space (String c rest) = String c rest /\
  Stoul.take_sign (String c rest) = (false, String c rest).
Proof.
  destruct c as [[] [] [] [] [] [] [] []]; try discriminate;
    intros _; split; reflexivity.
Qed.

Lemma digit_run_all_digits (s : string) :
  all_digits s = true -> Stoul.digit_run s = s.
Proof.
  induction s as [|c s IH]; [reflexivity|]. cbn.
  destruct (isdigit c); [|discriminate]. cbn. intro H. now rewrite IH.
Qed.

(** A valid unsigned integer is converted to its value. *)
Lemma stoul_valid_unsigned_integer (s : string) :
  valid_unsigned_integer s = true -> Stoul.stoul s = inr (Stoul.accumulate 0 s).
Proof.
  unfold valid_unsigned_integer. intro H.
  apply andb_prop in H. destruct H as [H Hle].
  apply andb_prop in H. destruct H as [Hne Hd].
  destruct s as [|c rest]; [discriminate|].
  assert (isdigit c = true) as Hc
    by (cbn in Hd; now destruct (isdigit c)).
  unfold Stoul.stoul.
  destruct (digit_is_no_space_nor_sign c rest Hc) as [-> ->].
  rewrite (digit_run_all_digits _ Hd).
  apply Z.leb_le in Hle.
  replace (ULONG_MAX <? Stoul.accumulate 0 (String c rest)) with false;
    [reflexivity|].
  symmetry. apply Z.ltb_ge. unfold ULONG_MAX, UINT_MAX in *. lia.
Qed.

(** A minus sign in front of a numeral within range is accepted: the
    value is negated modulo [ULONG_MAX + 1]. *)
Lemma stoul_negative_numeral (ds : string) :
  ds <> "" -> all_digits ds = true -> Stoul.accumulate 0 ds <= ULONG_MAX ->
  Stoul.stoul (String "-" ds) =
    inr ((ULONG_MAX + 1 - Stoul.accumulate 0 ds) mod (ULONG_MAX + 1)).
Proof.
  intros Hne Hd Hle. unfold Stoul.stoul.
  cbn [Stoul.skip_space Stoul.take_sign].
  replace (isspace "-") with false by reflexivity.
  cbn [Stoul.take_sign]. rewrite (digit_run_all_digits _ Hd).
  destruct ds as [|c rest]; [congruence|].
  replace (ULONG_MAX <? Stoul.accumulate 0 (String c rest)) with false;
    [reflexivity|].
  symmetry. now apply Z.ltb_ge.
Qed.

Lemma accumulate_nonneg (s : string) (acc : Z) :
  all_digits s = true -> 0 <= acc -> 0 <= Stoul.accumulate acc s.
Proof.
  revert acc. induction s as [|c s IH]; intros acc Hd Hacc; [assumption|].
  cbn [all_digits Stoul.accumulate] in Hd |- *.
  apply andb_prop in Hd. destruct Hd as [Hc Hd].
  apply IH; [assumption|].
  unfold isdigit, digit_value in *.
  apply andb_prop in Hc. destruct Hc as [Hc _]. apply Z.leb_le in Hc. lia.
Qed.

Lemma all_digits_digit_run (s : string) :
  all_digits (Stoul.digit_run s) = true.
Proof.
  induction s as [|c s IH]; [reflexivity|].
  cbn [Stoul.digit_run]. destruct (isdigit c) eqn:E; [|reflexivity].
  cbn [all_digits]. now rewrite E, IH.
Qed.

Lemma inr_eq {A B : Type} (x y : B) : @inr A B x = inr y -> x = y.
Proof. intro H. now injection H. Qed.

(** The value [std::stoul] returns is not negative. *)
Lemma stoul_nonneg (s : string) (v : Z) :
  Stoul.stoul s = inr v -> 0 <= v.
Proof.
  unfold Stoul.stoul.
  destruct (Stoul.take_sign (Stoul.skip_space s)) as [negative rest].
  pose proof (all_digits_digit_run rest) as Hd.
  destruct (Stoul.digit_run rest) as [|d ds]; [discriminate|].
  destruct (ULONG_MAX <? Stoul.accumulate 0 (String d ds)); [discriminate|].
  destruct negative; intro H; apply inr_eq in H; subst v.
  - set (m := ULONG_MAX + 1 - Stoul.accumulate 0 (String d ds)).
    assert (0 < ULONG_MAX + 1) as Hpos by (unfold ULONG_MAX; lia).
    exact (proj1 (Z.mod_pos_bound m (ULONG_MAX + 1) Hpos)).
  - apply accumulate_nonneg; [exact Hd|lia].
Qed.

Lemma numeric_conversion_fails_iff (c : cl_args_t) (t x : string) :
  (exists e, numeric_conversion c t x = inl e) <->
  StoulFacts.unconvertible t = true \/ StoulFacts.unconvertible x = true.
Proof.
  unfold numeric_conversion. split.
  - intros [e H].
    destruct (Stoul.stoul t) as [e1|w] eqn:Ht.
    + left. apply stoul_throws_iff. now exists e1.
    + destruct (Stoul.stoul x) as [e2|v] eqn:Hx; [|discriminate].
      right. apply stoul_throws_iff. now exists e2.
  - intros [H|H]; apply stoul_throws_iff in H; destruct H as [e H].
    + rewrite H. now exists e.
    + rewrite H. destruct (Stoul.stoul t) as [e1|w]; now eexists.
Qed.

(* ================================================================== *)
(** ** The shape of every run *)

Section Runs.

Context {input_t solution_t : Type}.
Variable env : environment input_t solution_t.

Lemma validated_fields (args : list string) (c : cl_args_t) :
  validated env args = inr c ->
  output_file c = last_optarg "o" (options env args) "" /\
  input_file c = last_optarg "i" (options env args) "" /\
  geometry c = has_flag "g" (options env args) /\
  log_level c = last_verbosity (options env args) (default_log_level env).
Proof.
  unfold validated, flags_state. intro H.
  apply numeric_conversion_inr in H. destruct H as (w & v & _ & _ & ->).
  cbn [output_file input_file geometry log_level set_exploration_level
       set_nb_threads].
  rewrite fold_output_file, fold_input_file, fold_geometry, fold_log_level.
  repeat split.
Qed.

Lemma output_file_flags_state (args : list string) :
  output_file (cl_args (flags_state env args)) =
    last_optarg "o" (options env args) "".
Proof. unfold flags_state. now rewrite fold_output_file. Qed.

Lemma bind_pure {A B : Type} (a : A) (k : A -> M solution_t B) :
  bind (pure a) k = k a.
Proof. unfold bind, pure. now destruct (k a). Qed.

Lemma run_nil_prefix (m : M solution_t termination) :
  run (let (es, r) := m in (([] ++ es)%list, r)) = run m.
Proof. now destruct m. Qed.

(** [main] by cases: the help flag, the numeric conversion, the input
    source, then the collaborators. *)
Lemma main_eq (args : list string) :
  main env args =
    if has_flag "h" (options env args) then usage_exit env
    else
      match validated env args with
      | inl _ =>
          error_exit "Wrong numerical value."
            (last_optarg "o" (options env args) "")
      | inr c =>
          match payload env args with
          | None => usage_exit env
          | Some p =>
              let (es, t) := run (build_and_solve env (set_input p c)) in
              ((reading env args ++ ev_set_filter (log_level c) :: es)%list, t)
          end
      end.
Proof.
  pose proof (validated_fields args) as VF.
  pose proof (output_file_flags_state args) as OF.
  unfold main, validated, payload, reading, flags_state, options, operands in *.
  destruct (Getopt.getopt_all optString (POSIXLY_CORRECT env) args)
    as [rs ops].
  cbn [fst snd] in *.
  unfold bind at 1. rewrite flag_loop_cases.
  destruct (has_flag "h" rs); [reflexivity|].
  fold (initial_state env) in *.
  set (st := fold_left (switch_value env) rs (initial_state env)) in *.
  rewrite run_nil_prefix. unfold validate_numerics.
  destruct (numeric_conversion (cl_args st) (nb_threads_arg st)
              (exploration_level_arg st)) as [e|c].
  - cbn. rewrite OF. reflexivity.
  - destruct (VF c eq_refl) as (_ & Hi & _ & _).
    rewrite bind_pure. unfold acquire_input. rewrite Hi.
    destruct (String.eqb (last_optarg "i" rs "") "").
    + destruct ops as [|a ops]; [reflexivity|].
      cbn [hd_error]. rewrite bind_pure.
      cbn [bind emit app log_level set_input].
      destruct (build_and_solve env (set_input a c)) as [es [t|t]];
        reflexivity.
    + cbn [bind emit pure app log_level set_input].
      destruct (build_and_solve env
                  (set_input (slurp (files env) (last_optarg "i" rs "")) c))
        as [es [t|t]]; reflexivity.
Qed.

(** The four ways the second [try] block ends. *)
Lemma build_and_solve_cases (c : cl_args_t) :
  let out := output_file c in
  let called := called env c in
  (exists sol,
      run (build_and_solve env c) =
        ((called ++ [ev_write_to_json (doc_solution sol) (geometry c) out])%list,
         exited 0)) \/
  (exists message,
      run (build_and_solve env c) =
        ((called ++ [ev_cerr ("[Error] " ++ message);
                     ev_write_to_json (doc_error 1 message) false out])%list,
         exited 1)) \/
  (LIBOSRM env = false /\
   ((exists what, parse env c = throws_std what) \/
    (exists p x t what, solve env p x t = throws_std what)) /\
   run (build_and_solve env c) = (called, terminated)).
Proof.
  cbv zeta. unfold build_and_solve, called.
  destruct (parse env c) as [p|m|w] eqn:Hp.
  - destruct (solve env p (exploration_level c) (nb_threads c))
      as [sol|m|w] eqn:Hs.
    + left. now exists sol.
    + right; left. now exists m.
    + destruct (LIBOSRM env) eqn:L.
      * right; left. now exists w.
      * right; right. split; [reflexivity|]. split; [|reflexivity].
        right. now exists p, (exploration_level c), (nb_threads c), w.
  - right; left. now exists m.
  - destruct (LIBOSRM env) eqn:L.
    + right; left. now exists w.
    + right; right. split; [reflexivity|]. split; [|reflexivity].
      left. now exists w.
Qed.

End Runs.

(* ================================================================== *)
(** ** Properties of the program *)

Section Properties.

Context {input_t solution_t : Type}.
Variable env : environment input_t solution_t.

Lemma flags_state_texts (args : list string) :
  nb_threads_arg (flags_state env args) =
    last_optarg "t" (options env args) "4" /\
  exploration_level_arg (flags_state env args) =
    last_optarg "x" (options env args) "1".
Proof.
  unfold flags_state.
  rewrite fold_nb_threads_arg, fold_exploration_level_arg. now split.
Qed.

Lemma validated_fails_iff (args : list string) :
  (exists e, validated env args = inl e) <->
  StoulFacts.unconvertible (last_optarg "t" (options env args) "4") = true \/
  StoulFacts.unconvertible (last_optarg "x" (options env args) "1") = true.
Proof.
  unfold validated. destruct (flags_state_texts args) as [-> ->].
  apply numeric_conversion_fails_iff.
Qed.

Lemma validated_values (args : list string) (c : cl_args_t) :
  validated env args = inr c ->
  exists w v,
    Stoul.stoul (last_optarg "t" (options env args) "4") = inr w /\
    Stoul.stoul (last_optarg "x" (options env args) "1") = inr v /\
    nb_threads c = to_unsigned w /\
    exploration_level c = Z.min (to_unsigned v) 5.
Proof.
  unfold validated. destruct (flags_state_texts args) as [-> ->].
  intro H. apply numeric_conversion_inr in H.
  destruct H as (w & v & Hw & Hv & ->). exists w, v.
  repeat split; try assumption.
  cbn [exploration_level set_exploration_level max_exploration_level
       set_nb_threads].
  unfold flags_state. now rewrite fold_max_exploration_level.
Qed.

(** With the help flag among the options the run is the usage text and a
    successful exit, whatever else the vector holds. *)
Lemma help_flag_displays_usage (args : list string) :
  has_flag "h" (options env args) = true ->
  main env args = ([ev_cout (usage (get_version env))], exited 0).
Proof. intro H. rewrite main_eq, H. reflexivity. Qed.

Lemma last_optarg_absent (c : ascii) (rs : list Getopt.ret) (d : string) :
  has_flag c rs = false -> last_optarg c rs d = d.
Proof.
  revert d. induction rs as [|r rs IH]; intros d H; [reflexivity|].
  cbn [has_flag existsb] in H. apply orb_false_iff in H. destruct H as [H1 H2].
  rewrite last_optarg_cons, H1. now apply IH.
Qed.

Lemma validated_succeeds (args : list string) :
  StoulFacts.unconvertible (last_optarg "t" (options env args) "4") = false ->
  StoulFacts.unconvertible (last_optarg "x" (options env args) "1") = false ->
  exists c, validated env args = inr c.
Proof.
  intros Ht Hx. destruct (validated env args) as [e|c] eqn:H; [|now exists c].
  assert (exists e', validated env args = inl e') as F by now exists e.
  apply validated_fails_iff in F. destruct F; congruence.
Qed.

(** Every event of the second [try] block is one of those listed by
    [collaborator_event], and [parse] is called. *)
Lemma build_and_solve_events (c : cl_args_t) :
  In (ev_parse c) (fst (run (build_and_solve env c))) /\
  Forall (collaborator_event c) (fst (run (build_and_solve env c))).
Proof.
  destruct (build_and_solve_cases env c) as [[sol H]|[[m H]|(_ & _ & H)]];
    rewrite H; clear H; unfold called; destruct (parse env c);
    cbn [fst app In]; (split; [now left|]);
    repeat constructor.
Qed.

(** A run that gets past the flags, the conversion and the input source
    configures the log filter and then enters the second [try] block, on
    the validated options completed with the problem text. *)
Lemma main_reaches_parse (args : list string) (c : cl_args_t) (p : string) :
  has_flag "h" (options env args) = false ->
  validated env args = inr c ->
  payload env args = Some p ->
  fst (main env args) =
    (reading env args ++ ev_set_filter (log_level c)
       :: fst (run (build_and_solve env (set_input p c))))%list.
Proof.
  intros Hh Hv Hp. rewrite main_eq, Hh, Hv, Hp.
  now destruct (run (build_and_solve env (set_input p c))).
Qed.

Lemma in_reading (args : list string) (e : event solution_t) :
  In e (reading env args) -> exists path, e = ev_ifstream path.
Proof.
  unfold reading.
  destruct (String.eqb (last_optarg "i" (options env args) "") "");
    cbn; [tauto|]. intros [<-|[]]. now eexists.
Qed.

Lemma parse_is_called (args : list string) (c : cl_args_t) (p : string) :
  has_flag "h" (options env args) = false ->
  validated env args = inr c ->
  payload env args = Some p ->
  In (ev_parse (set_input p c)) (fst (main env args)).
Proof.
  intros Hh Hv Hp. rewrite (main_reaches_parse args c p Hh Hv Hp).
  apply in_or_app. right. right.
  apply (build_and_solve_events (set_input p c)).
Qed.

(** The events of a run that reaches the collaborators. *)
Lemma main_events (args : list string) (c : cl_args_t) (p : string)
    (e : event solution_t) :
  has_flag "h" (options env args) = false ->
  validated env args = inr c ->
  payload env args = Some p ->
  In e (fst (main env args)) ->
  (exists path, e = ev_ifstream path) \/
  e = ev_set_filter (log_level c) \/
  collaborator_event (set_input p c) e.
Proof.
  intros Hh Hv Hp HIn. rewrite (main_reaches_parse args c p Hh Hv Hp) in HIn.
  apply in_app_or in HIn. destruct HIn as [HIn|[<-|HIn]].
  - left. now apply (in_reading args).
  - right; now left.
  - right; right.
    destruct (build_and_solve_events (set_input p c)) as [_ F].
    rewrite Forall_forall in F. now apply F.
Qed.

End Properties.

(* ================================================================== *)
(** ** The claims *)

Lemma documents_reading {input_t solution_t}
    (env : environment input_t solution_t) (args : list string)
    (es : list (event solution_t)) :
  documents (reading env args ++ es) = documents es.
Proof.
  unfold reading.
  destruct (String.eqb (last_optarg "i" (options env args) "") "");
    reflexivity.
Qed.

(** C1, as stated, fails: in a build without LIBOSRM an exception of the
    collaborators that is not a [custom_exception] leaves [main]; the
    process is terminated and has written no document at all. *)
Lemma C1_uncaught_exception_writes_no_document :
  main Samples.failing_backend ["{}"] =
    ([ev_set_filter error;
      ev_parse (set_input "{}" (default_cl_args error))], terminated) /\
  documents (fst (main Samples.failing_backend ["{}"])) = [].
Proof. split; reflexivity. Qed.

(** C1, amended: when every exception of the collaborators is handled (the
    build has LIBOSRM, or they only throw [custom_exception]), a run puts
    out exactly one document, as its last event: the usage text alone with
    exit status 0, or the solution written with the geometry toggle to the
    output file of the flags with status 0, or one error envelope with code
    1 written to that output file with status 1. *)
Theorem C1_exactly_one_document {input_t solution_t}
    (env : environment input_t solution_t) (args : list string) :
  every_exception_handled env ->
  let out := last_optarg "o" (options env args) "" in
  exists pre d,
    fst (main env args) = (pre ++ [d])%list /\
    documents pre = [] /\
    documents (fst (main env args)) = [d] /\
    ((d = ev_cout (usage (get_version env)) /\ pre = [] /\
      snd (main env args) = exited 0) \/
     (exists sol,
        d = ev_write_to_json (doc_solution sol)
              (has_flag "g" (options env args)) out /\
        snd (main env args) = exited 0) \/
     (exists message,
        d = ev_write_to_json (doc_error 1 message) false out /\
        snd (main env args) = exited 1)).
Proof.
  intros Handled out. rewrite main_eq.
  destruct (has_flag "h" (options env args)).
  { exists [], (ev_cout (usage (get_version env))). cbn. intuition. }
  destruct (validated env args) as [e|c] eqn:Hv.
  { exists [ev_cerr "[Error] Wrong numerical value."],
      (ev_write_to_json (doc_error 1 "Wrong numerical value.") false out).
    cbn. repeat split; right; right.
    now exists "Wrong numerical value.". }
  destruct (validated_fields env args c Hv) as (Ho & _ & Hg & _).
  destruct (payload env args) as [p|].
  2:{ exists [], (ev_cout (usage (get_version env))). cbn. intuition. }
  assert (documents (called env (set_input p c)) = []) as Hcalled
    by (unfold called; destruct (parse env (set_input p c)); reflexivity).
  set (pre := (reading env args ++ ev_set_filter (log_level c)
                 :: called env (set_input p c))%list).
  assert (forall tail, (reading env args ++ ev_set_filter (log_level c)
                          :: called env (set_input p c) ++ tail)%list
                       = (pre ++ tail)%list) as Hsplit
    by (intro tail; unfold pre; now rewrite <- app_assoc).
  assert (forall tail, documents (pre ++ tail) = documents tail) as Hdoc.
  { intro tail. unfold pre. rewrite <- app_assoc, documents_reading.
    cbn. unfold documents in *. now rewrite filter_app, Hcalled. }
  assert (documents pre = []) as Hpre
    by (rewrite <- (app_nil_r pre); now rewrite Hdoc).
  destruct (build_and_solve_cases env (set_input p c))
    as [[sol H]|[[m H]|(L & Hthrow & _)]].
  - rewrite H. cbn [fst snd output_file geometry set_input].
    rewrite Hsplit. eexists pre, _.
    split; [reflexivity|]. split; [exact Hpre|].
    split; [now rewrite Hdoc|].
    right; left. exists sol. now rewrite Hg, Ho.
  - rewrite H. cbn [fst snd output_file geometry set_input].
    rewrite Hsplit.
    exists (pre ++ [ev_cerr ("[Error] " ++ m)])%list,
      (ev_write_to_json (doc_error 1 m) false (output_file c)).
    split; [now rewrite <- app_assoc|].
    split; [now rewrite Hdoc|].
    split; [now rewrite Hdoc|].
    right; right. exists m. now rewrite Ho.
  - exfalso. destruct Handled as [L'|[Hp Hs]]; [congruence|].
    destruct Hthrow as [[w Hw]|(q & x & t & w & Hw)].
    + exact (Hp _ _ Hw).
    + exact (Hs _ _ _ _ Hw).
Qed.

Lemma C1_exactly_one_document_witness :
  exists pre d,
    fst (main Samples.rejecting ["-g"; "-o"; "out.json"; "{}"])
      = (pre ++ [d])%list /\
    documents pre = [] /\
    documents (fst (main Samples.rejecting ["-g"; "-o"; "out.json"; "{}"]))
      = [d] /\
    ((d = ev_cout (usage "1.2.0") /\ pre = [] /\
      snd (main Samples.rejecting ["-g"; "-o"; "out.json"; "{}"]) = exited 0) \/
     (exists sol,
        d = ev_write_to_json (doc_solution sol) true "out.json" /\
        snd (main Samples.rejecting ["-g"; "-o"; "out.json"; "{}"])
          = exited 0) \/
     (exists message,
        d = ev_write_to_json (doc_error 1 message) false "out.json" /\
        snd (main Samples.rejecting ["-g"; "-o"; "out.json"; "{}"])
          = exited 1)).
Proof.
  apply (C1_exactly_one_document Samples.rejecting
           ["-g"; "-o"; "out.json"; "{}"]).
  right. split; intros; discriminate.
Defined.

(** C2, as stated, fails: the text -1 is not a valid unsigned integer, yet
    the conversion accepts it; the thread count becomes 4294967295, with
    which the solver is then called. *)
Lemma C2_negative_value_is_converted :
  valid_unsigned_integer "-1" = false /\
  (exists c,
     numeric_conversion (default_cl_args error) "-1" "1" = inr c /\
     nb_threads c = 4294967295) /\
  In (ev_solve 1 4294967295)
     (fst (main Samples.solving ["-t"; "-1"; "{}"])).
Proof.
  split; [reflexivity|]. split.
  - eexists. split; reflexivity.
  - vm_compute. tauto.
Qed.

(** C2, amended: a text for -t or -x that has no decimal digit after its
    leading white space and one optional sign (the empty text is one), or
    whose digits exceed the range of [unsigned long], makes the numeric
    conversion throw, [std::invalid_argument] in the first case and
    [std::out_of_range] in the second; both are caught as the invalid
    numeric option. *)
Theorem C2_unconvertible_text_fails_validation (c : cl_args_t) (t x : string) :
  StoulFacts.unconvertible t = true \/ StoulFacts.unconvertible x = true ->
  numeric_conversion c t x = inl Stoul.invalid_argument \/
  numeric_conversion c t x = inl Stoul.out_of_range.
Proof.
  intro H. apply (numeric_conversion_fails_iff c) in H.
  destruct H as [[|] H]; [now left|now right].
Qed.

Lemma C2_unconvertible_text_fails_validation_witness :
  numeric_conversion (default_cl_args error) "" "1"
    = inl Stoul.invalid_argument \/
  numeric_conversion (default_cl_args error) "" "1"
    = inl Stoul.out_of_range.
Proof.
  apply (C2_unconvertible_text_fails_validation (default_cl_args error) "" "1").
  left. reflexivity.
Defined.

(** C3: when the flags have been scanned (no help flag among them) and the
    final text of -t or of -x cannot be converted, the run consists of the
    error line on the diagnostic stream and of one call of [write_to_json]
    with code 1, the message "Wrong numerical value.", no geometry and the
    output file given by the last -o; the exit status is 1.  Nothing else
    happens: no file is opened, and neither [parse] nor [solve] is called. *)
Theorem C3_wrong_numerical_value {input_t solution_t}
    (env : environment input_t solution_t) (args : list string) :
  has_flag "h" (options env args) = false ->
  StoulFacts.unconvertible (last_optarg "t" (options env args) "4") = true \/
  StoulFacts.unconvertible (last_optarg "x" (options env args) "1") = true ->
  main env args =
    ([ev_cerr "[Error] Wrong numerical value.";
      ev_write_to_json (doc_error 1 "Wrong numerical value.") false
        (last_optarg "o" (options env args) "")],
     exited 1).
Proof.
  intros Hh Hbad. apply validated_fails_iff in Hbad. destruct Hbad as [e He].
  rewrite main_eq, Hh, He. reflexivity.
Qed.

Lemma C3_wrong_numerical_value_witness :
  main Samples.solving ["-o"; "out.json"; "-t"; "abc"] =
    ([ev_cerr "[Error] Wrong numerical value.";
      ev_write_to_json (doc_error 1 "Wrong numerical value.") false "out.json"],
     exited 1).
Proof.
  apply (C3_wrong_numerical_value Samples.solving
           ["-o"; "out.json"; "-t"; "abc"]).
  - reflexivity.
  - left. reflexivity.
Defined.

(** C4, as stated, fails: the value converted from the text is stored in
    the [unsigned] field before the cap is applied, so a value of 2^32 or
    more is reduced modulo 2^32.  With -x 4294967296 the exploration level
    is 0, not min(4294967296, 5) = 5, and with -t 4294967297 the thread
    count is 1, not the value as it is; [solve] is called with them. *)
Lemma C4_large_values_are_truncated :
  Stoul.stoul "4294967296" = inr 4294967296 /\
  Stoul.stoul "4294967297" = inr 4294967297 /\
  Z.min 4294967296 5 = 5 /\
  (exists c',
     numeric_conversion (default_cl_args error) "4294967297" "4294967296"
       = inr c' /\
     exploration_level c' = 0 /\ nb_threads c' = 1) /\
  In (ev_solve 0 1)
     (fst (main Samples.solving
             ["-x"; "4294967296"; "-t"; "4294967297"; "{}"])).
Proof.
  split; [reflexivity|]. split; [reflexivity|]. split; [reflexivity|]. split.
  - eexists. repeat split.
  - vm_compute. tauto.
Qed.

(** C4, amended: after a successful conversion the exploration level is
    the value converted from the text of -x, reduced modulo 2^32 by the
    [unsigned] field it is stored in and then capped at the ceiling 5,
    hence between 0 and 5; for every converted value below 2^32 it is the
    smaller of that value and 5.  The thread count is the value converted
    from the text of -t reduced modulo 2^32, stored without any cap; for
    every converted value below 2^32 it is that value as it is. *)
Theorem C4_exploration_level_is_clamped (c c' : cl_args_t) (t x : string) :
  max_exploration_level c = 5 ->
  numeric_conversion c t x = inr c' ->
  0 <= exploration_level c' <= 5 /\
  exists w v,
    Stoul.stoul t = inr w /\ Stoul.stoul x = inr v /\
    exploration_level c' = Z.min (to_unsigned v) 5 /\
    nb_threads c' = to_unsigned w /\
    to_unsigned v = v mod 2 ^ 32 /\
    to_unsigned w = w mod 2 ^ 32 /\
    (v < 2 ^ 32 -> exploration_level c' = Z.min v 5) /\
    (w < 2 ^ 32 -> nb_threads c' = w).
Proof.
  intros Hmax H. apply numeric_conversion_inr in H.
  destruct H as (w & v & Hw & Hv & ->).
  cbn [exploration_level nb_threads set_exploration_level set_nb_threads
       max_exploration_level].
  rewrite Hmax. split.
  - pose proof (Z.mod_pos_bound v (UINT_MAX + 1)) as B.
    unfold to_unsigned, UINT_MAX in *. lia.
  - exists w, v.
    pose proof (stoul_nonneg _ _ Hw) as Hw0.
    pose proof (stoul_nonneg _ _ Hv) as Hv0.
    repeat split; try assumption; try reflexivity.
    + intro Hs. unfold to_unsigned, UINT_MAX.
      rewrite Z.mod_small by lia. reflexivity.
    + intro Hs. unfold to_unsigned, UINT_MAX.
      rewrite Z.mod_small by lia. reflexivity.
Qed.

Lemma C4_exploration_level_is_clamped_witness :
  exists c',
    numeric_conversion (default_cl_args error) "4000" "9" = inr c' /\
    exploration_level c' = 5 /\ nb_threads c' = 4000.
Proof.
  eexists. split; [reflexivity|].
  destruct (C4_exploration_level_is_clamped (default_cl_args error) _
              "4000" "9" eq_refl eq_refl)
    as (_ & w & v & Hw & Hv & Hx & Ht & _).
  vm_compute in Hw, Hv. injection Hw as <-. injection Hv as <-.
  split; [exact Hx | exact Ht].
Defined.

(** C5: the flag -? is accepted by [getopt] but the [switch] has no case
    for it, so it changes nothing: with a problem text on the command line
    the run goes on to the collaborators and writes the solution, and no
    usage text is displayed. *)
Theorem C5_question_mark_flag_is_ignored :
  options Samples.solving ["-?"; "{}"] = [("?"%char, "")] /\
  (forall st, switch Samples.solving st ("?"%char, "") = ([], inl st)) /\
  main Samples.solving ["-?"; "{}"] =
    ([ev_set_filter error;
      ev_parse (set_input "{}" (default_cl_args error));
      ev_solve 1 4;
      ev_write_to_json (doc_solution "solution") false ""],
     exited 0).
Proof. repeat split. Qed.



(** C7, as stated, fails: the vector [-t abc] has no -i and no operand,
    yet the run is not the usage text with status 0: the numeric conversion
    comes first, and the run is the error envelope with status 1. *)
Lemma C7_wrong_number_comes_before_missing_input :
  has_flag "i" (options Samples.solving ["-t"; "abc"]) = false /\
  operands Samples.solving ["-t"; "abc"] = [] /\
  main Samples.solving ["-t"; "abc"] =
    ([ev_cerr "[Error] Wrong numerical value.";
      ev_write_to_json (doc_error 1 "Wrong numerical value.") false ""],
     exited 1).
Proof. repeat split. Qed.

(** C7, amended: when no -i flag was given, there is no operand, and the
    final texts of -t and -x can be converted, the run is the usage text on
    standard output and the exit status 0. *)
Theorem C7_missing_input_displays_usage {input_t solution_t}
    (env : environment input_t solution_t) (args : list string) :
  has_flag "i" (options env args) = false ->
  operands env args = [] ->
  StoulFacts.unconvertible (last_optarg "t" (options env args) "4") = false ->
  StoulFacts.unconvertible (last_optarg "x" (options env args) "1") = false ->
  main env args = ([ev_cout (usage (get_version env))], exited 0).
Proof.
  intros Hi Hops Ht Hx. rewrite main_eq.
  destruct (has_flag "h" (options env args)); [reflexivity|].
  destruct (validated_succeeds env args Ht Hx) as [c ->].
  unfold payload. rewrite (last_optarg_absent "i" _ "" Hi), Hops.
  reflexivity.
Qed.

Lemma C7_missing_input_displays_usage_witness :
  main Samples.solving ["-g"; "-t"; "8"] = ([ev_cout (usage "1.2.0")], exited 0).
Proof.
  apply (C7_missing_input_displays_usage Samples.solving ["-g"; "-t"; "8"]);
    reflexivity.
Defined.

(** C8: the texts the numeric conversion reads are those the flag loop
    holds at its end: the argument of the last -t, or "4" (the default
    thread count printed by [std::to_string]) without any -t, and likewise
    the last -x, or "1".  When both convert and the run reaches the
    collaborators, the options handed to [parse] and the arguments of
    [solve] carry the value converted from the last -t as thread count and
    the value converted from the last -x, capped at 5, as exploration
    level. *)
Theorem C8_last_occurrence_is_converted {input_t solution_t}
    (env : environment input_t solution_t) (args : list string)
    (w v : Z) (p : string) :
  has_flag "h" (options env args) = false ->
  Stoul.stoul (last_optarg "t" (options env args) "4") = inr w ->
  Stoul.stoul (last_optarg "x" (options env args) "1") = inr v ->
  payload env args = Some p ->
  nb_threads_arg (flags_state env args)
    = last_optarg "t" (options env args)
        (to_string (nb_threads (default_cl_args (default_log_level env)))) /\
  exploration_level_arg (flags_state env args)
    = last_optarg "x" (options env args)
        (to_string (exploration_level (default_cl_args (default_log_level env)))) /\
  exists c,
    validated env args = inr c /\
    nb_threads c = to_unsigned w /\
    exploration_level c = Z.min (to_unsigned v) 5 /\
    In (ev_parse (set_input p c)) (fst (main env args)) /\
    forall x' t',
      In (ev_solve x' t') (fst (main env args)) ->
      x' = Z.min (to_unsigned v) 5 /\ t' = to_unsigned w.
Proof.
  intros Hh Hw Hv Hp.
  split; [apply flags_state_texts|]. split; [apply flags_state_texts|].
  destruct (validated_succeeds env args) as [c Hc].
  { apply stoul_converts_iff. now exists w. }
  { apply stoul_converts_iff. now exists v. }
  exists c. split; [exact Hc|].
  destruct (validated_values env args c Hc) as (w' & v' & Hw' & Hv' & Ht & Hx).
  rewrite Hw in Hw'. rewrite Hv in Hv'.
  injection Hw' as <-. injection Hv' as <-.
  split; [exact Ht|]. split; [exact Hx|]. split.
  - now apply parse_is_called.
  - intros x' t' HIn.
    destruct (main_events env args c p _ Hh Hc Hp HIn) as [[f H]|[H|H]];
      [discriminate|discriminate|].
    cbn in H. destruct H as [-> ->]. now rewrite Hx, Ht.
Qed.

Lemma C8_last_occurrence_is_converted_witness :
  nb_threads_arg
    (flags_state Samples.solving
       ["-t"; "7"; "-x"; "0"; "-x3"; "-t"; "2"; "{}"]) = "2" /\
  exploration_level_arg
    (flags_state Samples.solving
       ["-t"; "7"; "-x"; "0"; "-x3"; "-t"; "2"; "{}"]) = "3" /\
  exists c,
    validated Samples.solving ["-t"; "7"; "-x"; "0"; "-x3"; "-t"; "2"; "{}"]
      = inr c /\
    nb_threads c = 2 /\
    exploration_level c = 3 /\
    In (ev_parse (set_input "{}" c))
       (fst (main Samples.solving
               ["-t"; "7"; "-x"; "0"; "-x3"; "-t"; "2"; "{}"])) /\
    forall x' t',
      In (ev_solve x' t')
         (fst (main Samples.solving
                 ["-t"; "7"; "-x"; "0"; "-x3"; "-t"; "2"; "{}"])) ->
      x' = 3 /\ t' = 2.
Proof.
  exact (C8_last_occurrence_is_converted Samples.solving
           ["-t"; "7"; "-x"; "0"; "-x3"; "-t"; "2"; "{}"] 2 3 "{}"
           eq_refl eq_refl eq_refl eq_refl).
Defined.

(** C9: in every run, a call of [write_to_json] that writes an error
    envelope has its geometry argument false, and a call that writes a
    solution has it true exactly when the flag -g was given. *)
Theorem C9_error_envelope_without_geometry {input_t solution_t}
    (env : environment input_t solution_t) (args : list string)
    (d : document solution_t) (g : bool) (out : string) :
  In (ev_write_to_json d g out) (fst (main env args)) ->
  match d with
  | doc_error _ _ => g = false
  | doc_solution _ => g = has_flag "g" (options env args)
  end.
Proof.
  intro HIn.
  destruct (has_flag "h" (options env args)) eqn:Hh.
  { rewrite main_eq, Hh in HIn. cbn in HIn. intuition discriminate. }
  destruct (validated env args) as [e|c] eqn:Hv.
  { rewrite main_eq, Hh, Hv in HIn. cbn in HIn.
    destruct HIn as [H|[H|[]]]; [discriminate|]. now injection H as <- <- <-. }
  destruct (payload env args) as [p|] eqn:Hp.
  2:{ rewrite main_eq, Hh, Hv, Hp in HIn. cbn in HIn. intuition discriminate. }
  destruct (main_events env args c p _ Hh Hv Hp HIn) as [[f H]|[H|H]];
    [discriminate|discriminate|].
  destruct (validated_fields env args c Hv) as (_ & _ & Hg & _).
  destruct d as [sol|code m]; cbn in H.
  - now rewrite <- Hg.
  - tauto.
Qed.

Lemma C9_error_envelope_without_geometry_witness :
  has_flag "g" (options Samples.rejecting ["-g"; "{}"]) = true /\
  In (ev_write_to_json (doc_error 1 "Error while parsing.") false "")
     (fst (main Samples.rejecting ["-g"; "{}"])) /\
  (forall g out,
     In (ev_write_to_json (doc_error 1 "Error while parsing.") g out)
        (fst (main Samples.rejecting ["-g"; "{}"])) ->
     g = false).
Proof.
  split; [reflexivity|]. split; [vm_compute; tauto|].
  intros g out.
  exact (C9_error_envelope_without_geometry Samples.rejecting ["-g"; "{}"]
           (doc_error 1 "Error while parsing.") g out).
Defined.

(** C10: in a run that reaches the collaborators, the log filter is set
    once, to the severity of the last of the flags -v and -V on the command
    line (info for -v, trace for -V), or to the default when neither
    occurs; no order of the two flags ends the run. *)
Theorem C10_last_verbosity_flag_wins {input_t solution_t}
    (env : environment input_t solution_t) (args : list string)
    (c : cl_args_t) (p : string) :
  has_flag "h" (options env args) = false ->
  validated env args = inr c ->
  payload env args = Some p ->
  In (ev_set_filter
        (last_verbosity (options env args) (default_log_level env)))
     (fst (main env args)) /\
  (forall l,
     In (ev_set_filter l) (fst (main env args)) ->
     l = last_verbosity (options env args) (default_log_level env)) /\
  log_level c = last_verbosity (options env args) (default_log_level env).
Proof.
  intros Hh Hv Hp.
  destruct (validated_fields env args c Hv) as (_ & _ & _ & Hl).
  split; [|split; [|exact Hl]].
  - rewrite (main_reaches_parse env args c p Hh Hv Hp), Hl.
    apply in_or_app. right. now left.
  - intros l HIn.
    destruct (main_events env args c p _ Hh Hv Hp HIn) as [[f H]|[H|H]];
      [discriminate| |contradiction].
    injection H as ->. exact Hl.
Qed.

Lemma C10_last_verbosity_flag_wins_witness :
  In (ev_set_filter info) (fst (main Samples.solving ["-V"; "-v"; "{}"])) /\
  In (ev_set_filter trace) (fst (main Samples.solving ["-v"; "-V"; "{}"])).
Proof.
  split.
  - exact (proj1 (C10_last_verbosity_flag_wins Samples.solving
                    ["-V"; "-v"; "{}"]
                    (set_log_level info (default_cl_args error)) "{}"
                    eq_refl eq_refl eq_refl)).
  - exact (proj1 (C10_last_verbosity_flag_wins Samples.solving
                    ["-v"; "-V"; "{}"]
                    (set_log_level trace (default_cl_args error)) "{}"
                    eq_refl eq_refl eq_refl)).
Defined.

(* ================================================================== *)
(** ** Further properties of the program *)

Ltac case_flag o :=
  repeat match goal with
  | |- context [Ascii.eqb o ?c] =>
      let E := fresh "E" in
      destruct (Ascii.eqb o c) eqn:E;
      [ apply Ascii.eqb_eq in E; subst o; cbn | ]
  end.

Section RoutingOptions.

Context {input_t solution_t : Type}.
Variable env : environment input_t solution_t.

Lemma fold_osrm_address (rs : list Getopt.ret) (st : scan_state) :
  osrm_address (cl_args (fold_left (switch_value env) rs st)) =
    last_optarg "a" rs (osrm_address (cl_args st)).
Proof.
  revert st. induction rs as [|[o a] rs IH]; intro st; [reflexivity|].
  cbn [fold_left]. rewrite IH, last_optarg_cons. f_equal.
  unfold switch_value, switch. cbn [fst snd]. case_flag o; reflexivity.
Qed.

Lemma fold_osrm_port (rs : list Getopt.ret) (st : scan_state) :
  osrm_port (cl_args (fold_left (switch_value env) rs st)) =
    last_optarg "p" rs (osrm_port (cl_args st)).
Proof.
  revert st. induction rs as [|[o a] rs IH]; intro st; [reflexivity|].
  cbn [fold_left]. rewrite IH, last_optarg_cons. f_equal.
  unfold switch_value, switch. cbn [fst snd]. case_flag o; reflexivity.
Qed.

Lemma fold_osrm_profile (rs : list Getopt.ret) (st : scan_state) :
  osrm_profile (cl_args (fold_left (switch_value env) rs st)) =
    last_optarg "m" rs (osrm_profile (cl_args st)).
Proof.
  revert st. induction rs as [|[o a] rs IH]; intro st; [reflexivity|].
  cbn [fold_left]. rewrite IH, last_optarg_cons. f_equal.
  unfold switch_value, switch. cbn [fst snd]. case_flag o; reflexivity.
Qed.

Lemma fold_use_libosrm (rs : list Getopt.ret) (st : scan_state) :
  use_libosrm (cl_args (fold_left (switch_value env) rs st)) =
    use_libosrm (cl_args st) || has_flag "l" rs.
Proof.
  revert st. induction rs as [|[o a] rs IH]; intro st.
  - cbn. now rewrite orb_false_r.
  - cbn [fold_left has_flag existsb]. rewrite IH. fold (has_flag "l" rs).
    rewrite orb_assoc. f_equal.
    unfold switch_value, switch. cbn [fst snd].
    case_flag o; cbn; rewrite ?orb_false_r, ?orb_true_r; reflexivity.
Qed.

Lemma validated_routing_fields (args : list string) (c : cl_args_t) :
  validated env args = inr c ->
  osrm_address c = last_optarg "a" (options env args) "0.0.0.0" /\
  osrm_port c = last_optarg "p" (options env args) "5000" /\
  osrm_profile c = last_optarg "m" (options env args) "" /\
  use_libosrm c = has_flag "l" (options env args).
Proof.
  unfold validated, flags_state. intro H.
  apply numeric_conversion_inr in H. destruct H as (w & v & _ & _ & ->).
  cbn [osrm_address osrm_port osrm_profile use_libosrm set_exploration_level
       set_nb_threads].
  rewrite fold_osrm_address, fold_osrm_port, fold_osrm_profile,
    fold_use_libosrm.
  repeat split.
Qed.

(** The whole run once the flags, the conversion and the input source are
    passed, in terms of the second [try] block. *)
Lemma main_run (args : list string) (c : cl_args_t) (p : string) :
  has_flag "h" (options env args) = false ->
  validated env args = inr c ->
  payload env args = Some p ->
  main env args =
    ((reading env args ++ ev_set_filter (log_level c)
        :: fst (run (build_and_solve env (set_input p c))))%list,
     snd (run (build_and_solve env (set_input p c)))).
Proof.
  intros Hh Hv Hp. rewrite main_eq, Hh, Hv, Hp.
  now destruct (run (build_and_solve env (set_input p c))).
Qed.

End RoutingOptions.

(** X1: when [getopt] returns the help flag for some element of the
    vector, the run is the usage text and exit status 0, wherever the flag
    stands and whatever the other flags are; an invalid number given with
    -t or -x is not reported. *)
Theorem X1_help_flag_wins {input_t solution_t}
    (env : environment input_t solution_t) (args : list string) :
  has_flag "h" (options env args) = true ->
  main env args = ([ev_cout (usage (get_version env))], exited 0).
Proof. intro H. rewrite main_eq, H. reflexivity. Qed.

Lemma X1_help_flag_wins_witness :
  main Samples.solving ["-t"; "abc"; "-gh"; "{}"]
    = ([ev_cout (usage "1.2.0")], exited 0).
Proof.
  apply (X1_help_flag_wins Samples.solving ["-t"; "abc"; "-gh"; "{}"]).
  reflexivity.
Defined.

Lemma getopt_unknown_flag (pc : bool) (c : ascii) (args : list string) :
  Getopt.lookup optString c = None ->
  c <> "-"%char ->
  Getopt.getopt_calls optString pc (flag_element c :: args) =
    ((("?"%char, ""), Some (Getopt.invalid_option c))
       :: fst (Getopt.getopt_calls optString pc args),
     snd (Getopt.getopt_calls optString pc args)).
Proof.
  intros Hl Hc. unfold Getopt.getopt_calls, flag_element.
  cbn [Getopt.scan].
  replace (String.eqb (String "-" (String c "")) "--") with false.
  2:{ symmetry. cbn. destruct (Ascii.eqb_spec c "-"); [contradiction|].
      reflexivity. }
  cbn [Getopt.nonoption Getopt.after_dash Getopt.scan_element].
  rewrite Hl. cbn [Getopt.scan_element].
  destruct (Getopt.scan optString pc None [] args) as [cs ops]. reflexivity.
Qed.

(** X2: a flag that is not in the option string changes nothing but the
    diagnostic stream: [getopt] prints its "invalid option" line for it,
    the [switch] skips the value returned, and the process goes on as it
    does on the rest of the vector, to the same end. *)
Theorem X2_unknown_flag_is_skipped {input_t solution_t}
    (env : environment input_t solution_t) (c : ascii) (args : list string) :
  Getopt.lookup optString c = None ->
  c <> "-"%char ->
  process env (flag_element c :: args) =
    (inl (Getopt.invalid_option c) :: fst (process env args),
     snd (process env args)) /\
  main env (flag_element c :: args) = main env args.
Proof.
  intros Hl Hc. split.
  - unfold process. rewrite (getopt_unknown_flag _ c args Hl Hc).
    destruct (Getopt.getopt_calls optString (POSIXLY_CORRECT env) args)
      as [cs ops].
    cbn [fst snd observed_flag_loop]. rewrite switch_cases.
    cbn [fst]. replace (Ascii.eqb "?" "h") with false by reflexivity.
    change (switch_value env (initial_state env) ("?"%char, ""))
      with (initial_state env).
    cbn [map app].
    destruct (observed_flag_loop env cs (initial_state env)) as [os [st|t]];
      [|reflexivity].
    now destruct (run (after_flags env ops st)).
  - unfold main, Getopt.getopt_all.
    rewrite (getopt_unknown_flag _ c args Hl Hc).
    destruct (Getopt.getopt_calls optString (POSIXLY_CORRECT env) args)
      as [cs ops].
    cbn [fst snd map]. rewrite !flag_loop_cases. reflexivity.
Qed.

Lemma X2_unknown_flag_is_skipped_witness :
  process Samples.solving ["-z"; "-x"; "2"; "{}"] =
    (inl (Getopt.invalid_option "z")
       :: fst (process Samples.solving ["-x"; "2"; "{}"]),
     snd (process Samples.solving ["-x"; "2"; "{}"])) /\
  main Samples.solving ["-z"; "-x"; "2"; "{}"]
    = main Samples.solving ["-x"; "2"; "{}"].
Proof.
  apply (X2_unknown_flag_is_skipped Samples.solving "z" ["-x"; "2"; "{}"]).
  - reflexivity.
  - discriminate.
Defined.

(** X3: in a run that reaches the collaborators, the options [parse]
    receives hold the routing settings of the command line: the address of
    the last -a (0.0.0.0 without one), the port of the last -p (5000), the
    profile of the last -m (none), and the libosrm switch set exactly when
    -l was given. *)
Theorem X3_routing_options_reach_parse {input_t solution_t}
    (env : environment input_t solution_t) (args : list string)
    (c : cl_args_t) (p : string) :
  has_flag "h" (options env args) = false ->
  validated env args = inr c ->
  payload env args = Some p ->
  exists c',
    In (ev_parse c') (fst (main env args)) /\
    osrm_address c' = last_optarg "a" (options env args) "0.0.0.0" /\
    osrm_port c' = last_optarg "p" (options env args) "5000" /\
    osrm_profile c' = last_optarg "m" (options env args) "" /\
    use_libosrm c' = has_flag "l" (options env args).
Proof.
  intros Hh Hv Hp. exists (set_input p c).
  split; [now apply parse_is_called|].
  exact (validated_routing_fields env args c Hv).
Qed.

Lemma X3_routing_options_reach_parse_witness :
  exists c',
    In (ev_parse c')
       (fst (main Samples.solving
               ["-a"; "10.0.0.1"; "-l"; "-p"; "1"; "-p"; "5001"; "{}"])) /\
    osrm_address c' = "10.0.0.1" /\
    osrm_port c' = "5001" /\
    osrm_profile c' = "" /\
    use_libosrm c' = true.
Proof.
  exact (X3_routing_options_reach_parse Samples.solving
           ["-a"; "10.0.0.1"; "-l"; "-p"; "1"; "-p"; "5001"; "{}"]
           (set_osrm_port "5001"
              (set_use_libosrm true
                 (set_osrm_address "10.0.0.1" (default_cl_args error))))
           "{}" eq_refl eq_refl eq_refl).
Defined.

(** X4: a run that reaches the collaborators starts with the reading of
    the input file, when there is one, then sets the log filter, then calls
    [parse]; none of the three happens again afterwards. *)
Theorem X4_filter_is_set_before_parse {input_t solution_t}
    (env : environment input_t solution_t) (args : list string)
    (c : cl_args_t) (p : string) :
  has_flag "h" (options env args) = false ->
  validated env args = inr c ->
  payload env args = Some p ->
  exists tail,
    fst (main env args) =
      (reading env args ++ ev_set_filter (log_level c)
         :: ev_parse (set_input p c) :: tail)%list /\
    forall e, In e tail ->
      (forall path, e <> ev_ifstream path) /\
      (forall l, e <> ev_set_filter l) /\
      (forall c', e <> ev_parse c').
Proof.
  intros Hh Hv Hp. rewrite (main_reaches_parse env args c p Hh Hv Hp).
  destruct (build_and_solve_cases env (set_input p c))
    as [[sol H]|[[m H]|(_ & _ & H)]]; rewrite H; clear H; unfold called;
    destruct (parse env (set_input p c)); cbn [fst app];
    eexists; (split; [reflexivity|]);
    intros e HIn; cbn in HIn;
    repeat (destruct HIn as [<-|HIn]; [repeat split; discriminate|]);
    contradiction.
Qed.

Lemma X4_filter_is_set_before_parse_witness :
  exists tail,
    fst (main Samples.with_file ["-V"; "-i"; "problem.json"]) =
      (ev_ifstream "problem.json" :: ev_set_filter trace
         :: ev_parse (set_input "{from file}"
                        (set_log_level trace
                           (set_input_file "problem.json"
                              (default_cl_args error)))) :: tail)%list /\
    forall e, In e tail ->
      (forall path, e <> ev_ifstream path) /\
      (forall l, e <> ev_set_filter l) /\
      (forall c', e <> ev_parse c').
Proof.
  exact (X4_filter_is_set_before_parse Samples.with_file
           ["-V"; "-i"; "problem.json"]
           (set_log_level trace
              (set_input_file "problem.json" (default_cl_args error)))
           "{from file}" eq_refl eq_refl eq_refl).
Defined.

(** X5: when [parse] throws a [custom_exception], the run ends there:
    [solve] is not called, the message of the exception is printed after
    "[Error] " on the diagnostic stream and written, unchanged, as an error
    envelope with code 1 to the output file of the flags, and the exit
    status is 1. *)
Theorem X5_parse_failure_is_reported {input_t solution_t}
    (env : environment input_t solution_t) (args : list string)
    (c : cl_args_t) (p message : string) :
  has_flag "h" (options env args) = false ->
  validated env args = inr c ->
  payload env args = Some p ->
  parse env (set_input p c) = throws_custom message ->
  main env args =
    ((reading env args ++
      [ev_set_filter (log_level c);
       ev_parse (set_input p c);
       ev_cerr ("[Error] " ++ message);
       ev_write_to_json (doc_error 1 message) false
         (last_optarg "o" (options env args) "")])%list,
     exited 1).
Proof.
  intros Hh Hv Hp Hparse. rewrite (main_run env args c p Hh Hv Hp).
  destruct (validated_fields env args c Hv) as (<- & _).
  unfold build_and_solve. rewrite Hparse. reflexivity.
Qed.

Lemma X5_parse_failure_is_reported_witness :
  main Samples.rejecting ["-o"; "out.json"; "{}"] =
    ([ev_set_filter error;
      ev_parse (set_input "{}"
                  (set_output_file "out.json" (default_cl_args error)));
      ev_cerr "[Error] Error while parsing.";
      ev_write_to_json (doc_error 1 "Error while parsing.") false "out.json"],
     exited 1).
Proof.
  exact (X5_parse_failure_is_reported Samples.rejecting
           ["-o"; "out.json"; "{}"]
           (set_output_file "out.json" (default_cl_args error))
           "{}" "Error while parsing." eq_refl eq_refl eq_refl eq_refl).
Defined.

(** X6: when [parse] returns and [solve] throws a [custom_exception], the
    run is: filter, [parse], [solve] with the exploration level and the
    thread count of the validated options, then the message on the
    diagnostic stream and in an error envelope with code 1; no solution is
    written and the exit status is 1. *)
Theorem X6_solve_failure_is_reported {input_t solution_t}
    (env : environment input_t solution_t) (args : list string)
    (c : cl_args_t) (p message : string) (problem_instance : input_t) :
  has_flag "h" (options env args) = false ->
  validated env args = inr c ->
  payload env args = Some p ->
  parse env (set_input p c) = returns problem_instance ->
  solve env problem_instance (exploration_level c) (nb_threads c)
    = throws_custom message ->
  main env args =
    ((reading env args ++
      [ev_set_filter (log_level c);
       ev_parse (set_input p c);
       ev_solve (exploration_level c) (nb_threads c);
       ev_cerr ("[Error] " ++ message);
       ev_write_to_json (doc_error 1 message) false
         (last_optarg "o" (options env args) "")])%list,
     exited 1).
Proof.
  intros Hh Hv Hp Hparse Hsolve. rewrite (main_run env args c p Hh Hv Hp).
  destruct (validated_fields env args c Hv) as (<- & _).
  unfold build_and_solve. rewrite Hparse.
  cbn [exploration_level nb_threads set_input]. rewrite Hsolve. reflexivity.
Qed.

Lemma X6_solve_failure_is_reported_witness :
  main MoreSamples.unsolvable ["-x"; "3"; "{}"] =
    ([ev_set_filter error;
      ev_parse (set_input "{}"
                  (set_exploration_level 3 (default_cl_args error)));
      ev_solve 3 4;
      ev_cerr "[Error] Unfound route(s)";
      ev_write_to_json (doc_error 1 "Unfound route(s)") false ""],
     exited 1).
Proof.
  exact (X6_solve_failure_is_reported MoreSamples.unsolvable
           ["-x"; "3"; "{}"]
           (set_exploration_level 3 (default_cl_args error))
           "{}" "Unfound route(s)" tt eq_refl eq_refl eq_refl eq_refl eq_refl).
Defined.

(** The events of [main] when both collaborators return. *)
Lemma main_solution_run {input_t solution_t}
    (env : environment input_t solution_t) (args : list string)
    (c : cl_args_t) (p : string) (problem_instance : input_t)
    (sol : solution_t) :
  has_flag "h" (options env args) = false ->
  validated env args = inr c ->
  payload env args = Some p ->
  parse env (set_input p c) = returns problem_instance ->
  solve env problem_instance (exploration_level c) (nb_threads c)
    = returns sol ->
  main env args =
    ((reading env args ++
      [ev_set_filter (log_level c);
       ev_parse (set_input p c);
       ev_solve (exploration_level c) (nb_threads c);
       ev_write_to_json (doc_solution sol)
         (has_flag "g" (options env args))
         (last_optarg "o" (options env args) "")])%list,
     exited 0).
Proof.
  intros Hh Hv Hp Hparse Hsolve. rewrite (main_run env args c p Hh Hv Hp).
  destruct (validated_fields env args c Hv) as (<- & _ & <- & _).
  unfold build_and_solve. rewrite Hparse.
  cbn [exploration_level nb_threads set_input]. rewrite Hsolve. reflexivity.
Qed.

Lemma build_and_solve_custom_only {input_t solution_t}
    (env : environment input_t solution_t) (c : cl_args_t) :
  LIBOSRM env = true ->
  build_and_solve (custom_only env) c = build_and_solve env c.
Proof.
  intro L. unfold build_and_solve.
  cbn [custom_only LIBOSRM parse solve]. rewrite L.
  destruct (parse env c) as [q|m|w]; try reflexivity.
  destruct (solve env q (exploration_level c) (nb_threads c)) as [sol|m|w];
    reflexivity.
Qed.

(** X8: in a build with LIBOSRM, an exception of the collaborators that
    is not a [custom_exception] is handled like one: the run is the same
    as if the collaborator had thrown a [custom_exception] with the text
    of [what()]. *)
Theorem X8_libosrm_build_reports_any_exception {input_t solution_t}
    (env : environment input_t solution_t) (args : list string) :
  LIBOSRM env = true ->
  main env args = main (custom_only env) args.
Proof.
  intro L. rewrite !main_eq.
  change (options (custom_only env) args) with (options env args).
  change (validated (custom_only env) args) with (validated env args).
  change (payload (custom_only env) args) with (payload env args).
  change (usage_exit (custom_only env)) with (usage_exit env).
  destruct (has_flag "h" (options env args)); [reflexivity|].
  destruct (validated env args) as [e|c]; [reflexivity|].
  destruct (payload env args) as [p|]; [|reflexivity].
  rewrite (build_and_solve_custom_only env _ L). reflexivity.
Qed.

Lemma X8_libosrm_build_reports_any_exception_witness :
  main MoreSamples.libosrm_failing ["{}"] =
    ([ev_set_filter error;
      ev_parse (set_input "{}" (default_cl_args error));
      ev_solve 1 4;
      ev_cerr "[Error] osrm: datastore is not running";
      ev_write_to_json (doc_error 1 "osrm: datastore is not running")
        false ""],
     exited 1).
Proof.
  rewrite (X8_libosrm_build_reports_any_exception
             MoreSamples.libosrm_failing ["{}"] eq_refl).
  reflexivity.
Defined.

Lemma documents_before_outcome {input_t solution_t}
    (env : environment input_t solution_t) (args : list string)
    (c : cl_args_t) (tail : list (event solution_t)) :
  documents (reading env args ++ ev_set_filter (log_level c)
               :: called env c ++ tail) = documents tail.
Proof.
  rewrite documents_reading. cbn. unfold documents, called.
  rewrite filter_app. destruct (parse env c); reflexivity.
Qed.

(** X9: no run writes more than one document, and the runs that write
    none are those that end in [std::terminate]: they happen only in a
    build without LIBOSRM, after [parse] has been called. *)
Theorem X9_no_document_only_when_terminated {input_t solution_t}
    (env : environment input_t solution_t) (args : list string) :
  (List.length (documents (fst (main env args))) <= 1)%nat /\
  (documents (fst (main env args)) = [] <->
   snd (main env args) = terminated) /\
  (snd (main env args) = terminated ->
   LIBOSRM env = false /\ exists c, In (ev_parse c) (fst (main env args))).
Proof.
  destruct (has_flag "h" (options env args)) eqn:Hh.
  { rewrite main_eq, Hh. cbn. repeat split; try discriminate; lia. }
  destruct (validated env args) as [e|c] eqn:Hv.
  { rewrite main_eq, Hh, Hv. cbn. repeat split; try discriminate; lia. }
  destruct (payload env args) as [p|] eqn:Hp.
  2:{ rewrite main_eq, Hh, Hv, Hp. cbn. repeat split; try discriminate; lia. }
  pose proof (parse_is_called env args c p Hh Hv Hp) as Hcalled.
  rewrite (main_run env args c p Hh Hv Hp) in *.
  change (log_level c) with (log_level (set_input p c)) in *.
  destruct (build_and_solve_cases env (set_input p c))
    as [[sol H]|[[m H]|(L & _ & H)]]; rewrite H in *; clear H;
    cbn [fst snd];
    rewrite ?documents_before_outcome;
    try (rewrite <- (app_nil_r (called env (set_input p c))),
           documents_before_outcome);
    cbn; repeat split; try discriminate; try lia; try assumption;
    try (intros _; now exists (set_input p c)).
  exists (set_input p c).
  apply in_or_app. right. right. apply in_or_app. left.
  unfold called. destruct (parse env (set_input p c)); now left.
Qed.

(** X10: every error envelope of a run comes right after the line that
    prints the same message on the diagnostic stream, with "[Error] " in
    front; the two are the last events of the run, the envelope has code 1
    and goes to the output file of the last -o, and the exit status is
    1. *)
Theorem X10_error_text_on_both_streams {input_t solution_t}
    (env : environment input_t solution_t) (args : list string)
    (code : Z) (message : string) (g : bool) (out : string) :
  In (ev_write_to_json (doc_error code message) g out)
     (fst (main env args)) ->
  code = 1 /\
  out = last_optarg "o" (options env args) "" /\
  snd (main env args) = exited 1 /\
  exists pre,
    fst (main env args) =
      (pre ++ [ev_cerr ("[Error] " ++ message);
               ev_write_to_json (doc_error code message) g out])%list.
Proof.
  intro HIn.
  destruct (has_flag "h" (options env args)) eqn:Hh.
  { rewrite main_eq, Hh in HIn. cbn in HIn. intuition discriminate. }
  destruct (validated env args) as [e|c] eqn:Hv.
  { rewrite main_eq, Hh, Hv in *. cbn in HIn |- *.
    destruct HIn as [H|[H|[]]]; [discriminate|].
    injection H as <- <- <- <-. repeat split. now exists []. }
  destruct (payload env args) as [p|] eqn:Hp.
  2:{ rewrite main_eq, Hh, Hv, Hp in HIn. cbn in HIn. intuition discriminate. }
  destruct (validated_fields env args c Hv) as (Ho & _).
  rewrite (main_run env args c p Hh Hv Hp) in *. cbn [fst snd] in *.
  apply in_app_or in HIn. destruct HIn as [HIn|[HIn|HIn]].
  { apply in_reading in HIn. destruct HIn as [f HIn]. discriminate. }
  { discriminate. }
  assert (~ In (ev_write_to_json (doc_error code message) g out)
              (called env (set_input p c))) as Hnot.
  { unfold called. destruct (parse env (set_input p c)); cbn;
      intuition discriminate. }
  destruct (build_and_solve_cases env (set_input p c))
    as [[sol H]|[[m H]|(L & _ & H)]]; rewrite H in *; clear H;
    cbn [fst snd] in *.
  - apply in_app_or in HIn. destruct HIn as [HIn|HIn]; [contradiction|].
    cbn in HIn. intuition discriminate.
  - apply in_app_or in HIn. destruct HIn as [HIn|HIn]; [contradiction|].
    destruct HIn as [HIn|[HIn|[]]]; [discriminate|].
    injection HIn as <- <- <- <-. cbn [output_file set_input].
    repeat split; try assumption.
    exists (reading env args ++ ev_set_filter (log_level c)
              :: called env (set_input p c))%list.
    now rewrite <- app_assoc.
  - contradiction.
Qed.

Lemma X10_error_text_on_both_streams_witness :
  1 = 1 /\
  "out.json" = last_optarg "o"
                 (options MoreSamples.unsolvable ["-o"; "out.json"; "{}"]) "" /\
  snd (main MoreSamples.unsolvable ["-o"; "out.json"; "{}"]) = exited 1 /\
  exists pre,
    fst (main MoreSamples.unsolvable ["-o"; "out.json"; "{}"]) =
      (pre ++ [ev_cerr ("[Error] " ++ "Unfound route(s)");
               ev_write_to_json (doc_error 1 "Unfound route(s)") false
                 "out.json"])%list.
Proof.
  apply (X10_error_text_on_both_streams MoreSamples.unsolvable
           ["-o"; "out.json"; "{}"] 1 "Unfound route(s)" false "out.json").
  vm_compute. tauto.
Defined.

(** X11: the usage text is never mixed with anything else: a run that
    prints on standard output prints the usage text, does nothing else and
    exits with status 0. *)
Theorem X11_usage_is_the_whole_run {input_t solution_t}
    (env : environment input_t solution_t) (args : list string)
    (text : string) :
  In (ev_cout text) (fst (main env args)) ->
  text = usage (get_version env) /\
  main env args = ([ev_cout (usage (get_version env))], exited 0).
Proof.
  intro HIn.
  destruct (has_flag "h" (options env args)) eqn:Hh.
  { rewrite main_eq, Hh in *. cbn in HIn.
    destruct HIn as [H|[]]. injection H as <-. now split. }
  destruct (validated env args) as [e|c] eqn:Hv.
  { rewrite main_eq, Hh, Hv in HIn. cbn in HIn. intuition discriminate. }
  destruct (payload env args) as [p|] eqn:Hp.
  2:{ rewrite main_eq, Hh, Hv, Hp in *. cbn in HIn.
      destruct HIn as [H|[]]. injection H as <-. now split. }
  destruct (main_events env args c p _ Hh Hv Hp HIn) as [[f H]|[H|H]];
    [discriminate|discriminate|contradiction].
Qed.

Lemma X11_usage_is_the_whole_run_witness :
  usage "1.2.0" = usage "1.2.0" /\
  main Samples.solving ["-g"] = ([ev_cout (usage "1.2.0")], exited 0).
Proof.
  apply (X11_usage_is_the_whole_run Samples.solving ["-g"] (usage "1.2.0")).
  vm_compute. tauto.
Defined.

(** X12: a run opens at most the file named by the last -i: when a file
    is read, its name is that argument, it is not empty, and the reading is
    the first thing the run does. *)
Theorem X12_only_the_input_file_is_read {input_t solution_t}
    (env : environment input_t solution_t) (args : list string)
    (path : string) :
  In (ev_ifstream path) (fst (main env args)) ->
  path = last_optarg "i" (options env args) "" /\
  path <> "" /\
  has_flag "i" (options env args) = true /\
  hd_error (fst (main env args)) = Some (ev_ifstream path).
Proof.
  intro HIn.
  destruct (has_flag "h" (options env args)) eqn:Hh.
  { rewrite main_eq, Hh in HIn. cbn in HIn. intuition discriminate. }
  destruct (validated env args) as [e|c] eqn:Hv.
  { rewrite main_eq, Hh, Hv in HIn. cbn in HIn. intuition discriminate. }
  destruct (payload env args) as [p|] eqn:Hp.
  2:{ rewrite main_eq, Hh, Hv, Hp in HIn. cbn in HIn. intuition discriminate. }
  rewrite (main_reaches_parse env args c p Hh Hv Hp) in *.
  assert (In (ev_ifstream path) (reading env args)) as HR.
  { apply in_app_or in HIn. destruct HIn as [HIn|[HIn|HIn]];
      [assumption|discriminate|].
    destruct (build_and_solve_events env (set_input p c)) as [_ F].
    rewrite Forall_forall in F. destruct (F _ HIn). }
  clear HIn. unfold reading in *.
  destruct (String.eqb (last_optarg "i" (options env args) "") "") eqn:E;
    [destruct HR|].
  destruct HR as [HR|[]]. injection HR as <-.
  apply String.eqb_neq in E. repeat split; try assumption.
  destruct (has_flag "i" (options env args)) eqn:Hi; [reflexivity|].
  now rewrite (last_optarg_absent "i" _ "" Hi) in E.
Qed.

Lemma X12_only_the_input_file_is_read_witness :
  "problem.json" =
    last_optarg "i"
      (options Samples.with_file ["-i"; "other.json"; "-i"; "problem.json"])
      "" /\
  "problem.json" <> "" /\
  has_flag "i"
    (options Samples.with_file ["-i"; "other.json"; "-i"; "problem.json"])
    = true /\
  hd_error
    (fst (main Samples.with_file ["-i"; "other.json"; "-i"; "problem.json"]))
    = Some (ev_ifstream "problem.json").
Proof.
  apply (X12_only_the_input_file_is_read Samples.with_file
           ["-i"; "other.json"; "-i"; "problem.json"] "problem.json").
  vm_compute. tauto.
Defined.

(** X13: an input file that cannot be opened is not an error of [main]:
    the problem text is then empty, and [parse] is called with it. *)
Theorem X13_unreadable_file_gives_empty_text {input_t solution_t}
    (env : environment input_t solution_t) (args : list string)
    (c : cl_args_t) :
  has_flag "h" (options env args) = false ->
  validated env args = inr c ->
  last_optarg "i" (options env args) "" <> "" ->
  files env (last_optarg "i" (options env args) "") = None ->
  payload env args = Some "" /\
  In (ev_parse (set_input "" c)) (fst (main env args)) /\
  forall text, ~ In (ev_cout text) (fst (main env args)).
Proof.
  intros Hh Hv Hne Hnone.
  assert (payload env args = Some "") as Hp.
  { unfold payload. apply String.eqb_neq in Hne. rewrite Hne.
    unfold slurp. now rewrite Hnone. }
  split; [exact Hp|]. split; [now apply parse_is_called|].
  intros text HIn.
  destruct (main_events env args c "" _ Hh Hv Hp HIn) as [[f H]|[H|H]];
    [discriminate|discriminate|contradiction].
Qed.

Lemma X13_unreadable_file_gives_empty_text_witness :
  payload Samples.solving ["-i"; "missing.json"] = Some "" /\
  In (ev_parse (set_input ""
                  (set_input_file "missing.json" (default_cl_args error))))
     (fst (main Samples.solving ["-i"; "missing.json"])) /\
  forall text,
    ~ In (ev_cout text) (fst (main Samples.solving ["-i"; "missing.json"])).
Proof.
  apply (X13_unreadable_file_gives_empty_text Samples.solving
           ["-i"; "missing.json"]
           (set_input_file "missing.json" (default_cl_args error)));
    try reflexivity.
  discriminate.
Defined.



(* ================================================================== *)
(** ** Further properties of the numeric conversion *)

Lemma stoul_numeral (s : string) :
  is_numeral s = true ->
  Stoul.accumulate 0 s <= ULONG_MAX ->
  Stoul.stoul s = inr (Stoul.accumulate 0 s).
Proof.
  unfold is_numeral. intros H Hle.
  apply andb_prop in H. destruct H as [Hne Hd].
  destruct s as [|c rest]; [discriminate|].
  assert (isdigit c = true) as Hc
    by (cbn in Hd; now destruct (isdigit c)).
  unfold Stoul.stoul.
  destruct (digit_is_no_space_nor_sign c rest Hc) as [-> ->].
  rewrite (digit_run_all_digits _ Hd).
  replace (ULONG_MAX <? Stoul.accumulate 0 (String c rest)) with false;
    [reflexivity|].
  symmetry. now apply Z.ltb_ge.
Qed.

Lemma digit_run_app (s rest : string) :
  all_digits s = true -> starts_with_digit rest = false ->
  Stoul.digit_run (s ++ rest) = s.
Proof.
  intros Hd Hr. induction s as [|c s IH].
  - cbn. destruct rest as [|d rest]; [reflexivity|].
    cbn in Hr |- *. now rewrite Hr.
  - cbn in Hd |- *. destruct (isdigit c); [|discriminate].
    cbn in Hd. now rewrite IH.
Qed.

Lemma stoul_ignores_trailing_text (s rest : string) :
  is_numeral s = true -> starts_with_digit rest = false ->
  Stoul.stoul (s ++ rest) = Stoul.stoul s.
Proof.
  unfold is_numeral. intros H Hr.
  apply andb_prop in H. destruct H as [Hne Hd].
  destruct s as [|c s]; [discriminate|].
  assert (isdigit c = true) as Hc
    by (cbn in Hd; now destruct (isdigit c)).
  unfold Stoul.stoul. cbn [append].
  destruct (digit_is_no_space_nor_sign c (s ++ rest) Hc) as [-> ->].
  destruct (digit_is_no_space_nor_sign c s Hc) as [-> ->].
  change (String c (s ++ rest)) with (String c s ++ rest).
  rewrite (digit_run_app _ _ Hd Hr), (digit_run_all_digits _ Hd).
  reflexivity.
Qed.

(** The numeral printed by [std::to_string] and its value. *)
Lemma accumulate_string_of_uint_acc (d : Decimal.uint) (acc : positive) :
  Stoul.accumulate (Z.pos acc) (NilEmpty.string_of_uint d) =
    Z.pos (Pos.of_uint_acc d acc).
Proof.
  revert acc. induction d; intro acc; cbn [NilEmpty.string_of_uint
    Stoul.accumulate Pos.of_uint_acc]; [reflexivity|..];
    rewrite <- IHd; f_equal;
    match goal with
    | |- context [digit_value ?c] =>
        let v := eval vm_compute in (digit_value c) in
        change (digit_value c) with v
    end; lia.
Qed.

Lemma accumulate_string_of_uint (d : Decimal.uint) :
  Stoul.accumulate 0 (NilEmpty.string_of_uint d) = Z.of_N (Pos.of_uint d).
Proof.
  induction d; cbn [NilEmpty.string_of_uint Stoul.accumulate Pos.of_uint];
    [reflexivity|exact IHd|..];
    apply (accumulate_string_of_uint_acc d).
Qed.

Lemma all_digits_string_of_uint (d : Decimal.uint) :
  all_digits (NilEmpty.string_of_uint d) = true.
Proof. induction d; cbn; auto. Qed.

Lemma to_string_numeral (n : Z) :
  0 <= n ->
  is_numeral (to_string n) = true /\ Stoul.accumulate 0 (to_string n) = n.
Proof.
  intro Hn. unfold to_string, NilZero.string_of_uint.
  pose proof (DecimalN.Unsigned.of_to (Z.to_N n)) as RT.
  unfold N.of_uint in RT.
  destruct (N.to_uint (Z.to_N n)) as [|d|d|d|d|d|d|d|d|d|d] eqn:E.
  1:{ cbn in RT |- *. split; [reflexivity|lia]. }
  all: split;
    [ unfold is_numeral; rewrite all_digits_string_of_uint; reflexivity
    | rewrite accumulate_string_of_uint, RT; lia ].
Qed.

Lemma to_unsigned_small (n : Z) : 0 <= n <= UINT_MAX -> to_unsigned n = n.
Proof. intro H. unfold to_unsigned. apply Z.mod_small. lia. Qed.

Lemma stoul_to_string (n : Z) :
  0 <= n <= UINT_MAX -> Stoul.stoul (to_string n) = inr n.
Proof.
  intro H. destruct (to_string_numeral n) as [Hnum Hval]; [lia|].
  rewrite stoul_numeral; [now rewrite Hval|exact Hnum|].
  rewrite Hval. unfold ULONG_MAX, UINT_MAX in *. lia.
Qed.

(** X15: printing the numeric fields with [std::to_string] and converting
    the texts back is a round trip: for options whose thread count and
    exploration level are values of [unsigned], the conversion of their
    printed forms succeeds, leaves the thread count and every other field
    as they are, and only caps the exploration level at the ceiling.  So a
    command line without -t and -x keeps the constructor's values. *)
Theorem X15_printed_defaults_convert_back (c : cl_args_t) :
  0 <= nb_threads c <= UINT_MAX ->
  0 <= exploration_level c <= UINT_MAX ->
  numeric_conversion c (to_string (nb_threads c))
    (to_string (exploration_level c)) =
  inr (set_exploration_level
         (Z.min (exploration_level c) (max_exploration_level c)) c).
Proof.
  intros Ht Hx. unfold numeric_conversion.
  rewrite (stoul_to_string _ Ht), (stoul_to_string _ Hx).
  rewrite (to_unsigned_small _ Ht), (to_unsigned_small _ Hx).
  destruct c. reflexivity.
Qed.

Lemma X15_printed_defaults_convert_back_witness :
  numeric_conversion
    (set_exploration_level 9 (set_nb_threads 4294967295 (default_cl_args info)))
    "4294967295" "9" =
  inr (set_exploration_level 5
         (set_nb_threads 4294967295 (default_cl_args info))).
Proof.
  apply (X15_printed_defaults_convert_back
           (set_exploration_level 9
              (set_nb_threads 4294967295 (default_cl_args info))));
    cbn; unfold UINT_MAX; lia.
Defined.

(** X16: a text made of decimal digits only whose value fits [unsigned
    long] is accepted for -t and for -x.  The thread count becomes that
    value reduced modulo 2^32: a value that fits [unsigned] is kept, a
    greater one is truncated without any error.  The exploration level is
    the reduced value of its text, capped at the ceiling. *)
Theorem X16_numerals_are_converted (c : cl_args_t) (t x : string) :
  is_numeral t = true -> is_numeral x = true ->
  Stoul.accumulate 0 t <= ULONG_MAX ->
  Stoul.accumulate 0 x <= ULONG_MAX ->
  exists c',
    numeric_conversion c t x = inr c' /\
    nb_threads c' = Stoul.accumulate 0 t mod 2 ^ 32 /\
    exploration_level c' =
      Z.min (Stoul.accumulate 0 x mod 2 ^ 32) (max_exploration_level c) /\
    (Stoul.accumulate 0 t <= UINT_MAX -> nb_threads c' = Stoul.accumulate 0 t).
Proof.
  intros Ht Hx Hlt Hlx. unfold numeric_conversion.
  rewrite (stoul_numeral t Ht Hlt), (stoul_numeral x Hx Hlx).
  eexists. split; [reflexivity|].
  cbn [nb_threads exploration_level max_exploration_level
       set_exploration_level set_nb_threads].
  split; [reflexivity|]. split; [reflexivity|].
  intro Hsmall. apply to_unsigned_small. split; [|assumption].
  apply accumulate_nonneg; [|lia].
  unfold is_numeral in Ht. now apply andb_prop in Ht.
Qed.

Lemma X16_numerals_are_converted_witness :
  exists c',
    numeric_conversion (default_cl_args error) "4294967297" "3" = inr c' /\
    nb_threads c' = Stoul.accumulate 0 "4294967297" mod 2 ^ 32 /\
    exploration_level c' = Z.min (Stoul.accumulate 0 "3" mod 2 ^ 32) 5 /\
    (Stoul.accumulate 0 "4294967297" <= UINT_MAX ->
     nb_threads c' = Stoul.accumulate 0 "4294967297").
Proof.
  apply (X16_numerals_are_converted (default_cl_args error) "4294967297" "3");
    try reflexivity; vm_compute; discriminate.
Defined.

(** X17: what follows the digits of a numeral is not looked at: a text
    for -t or -x that starts with a numeral and goes on with anything that
    is not a digit is converted exactly like the numeral alone. *)
Theorem X17_trailing_text_is_ignored (c : cl_args_t)
    (t x rest_t rest_x : string) :
  is_numeral t = true -> is_numeral x = true ->
  starts_with_digit rest_t = false -> starts_with_digit rest_x = false ->
  numeric_conversion c (t ++ rest_t) (x ++ rest_x) = numeric_conversion c t x.
Proof.
  intros Ht Hx Hrt Hrx. unfold numeric_conversion.
  now rewrite (stoul_ignores_trailing_text t rest_t Ht Hrt),
    (stoul_ignores_trailing_text x rest_x Hx Hrx).
Qed.

Lemma X17_trailing_text_is_ignored_witness :
  numeric_conversion (default_cl_args error) "8 threads" "2.5"
    = numeric_conversion (default_cl_args error) "8" "2".
Proof.
  apply (X17_trailing_text_is_ignored (default_cl_args error)
           "8" "2" " threads" ".5"); reflexivity.
Defined.

Lemma stoul_negative_small (ds : string) :
  is_numeral ds = true ->
  0 < Stoul.accumulate 0 ds <= UINT_MAX ->
  exists v,
    Stoul.stoul (String "-" ds) = inr v /\
    to_unsigned v = UINT_MAX + 1 - Stoul.accumulate 0 ds.
Proof.
  intros Hn Hv. unfold is_numeral in Hn.
  apply andb_prop in Hn. destruct Hn as [Hne Hd].
  eexists. split.
  - apply stoul_negative_numeral; [|assumption|].
    + intros ->. discriminate.
    + unfold ULONG_MAX, UINT_MAX in *. lia.
  - unfold to_unsigned, ULONG_MAX, UINT_MAX in *.
    set (n := Stoul.accumulate 0 ds) in *.
    rewrite (Z.mod_small (2 ^ 64 - 1 + 1 - n)) by lia.
    symmetry. apply (Z.mod_unique _ _ (2 ^ 32 - 1)); lia.
Qed.

(** X18: a minus sign in front of a numeral is accepted and the value
    wraps around: for N between 1 and 4294967295, the text -N given to -t
    makes the thread count 4294967296 - N, and given to -x it makes the
    exploration level the smaller of 4294967296 - N and the ceiling. *)
Theorem X18_negative_numbers_wrap_around (c : cl_args_t) (t x : string) :
  is_numeral t = true -> is_numeral x = true ->
  0 < Stoul.accumulate 0 t <= UINT_MAX ->
  0 < Stoul.accumulate 0 x <= UINT_MAX ->
  exists c',
    numeric_conversion c (String "-" t) (String "-" x) = inr c' /\
    nb_threads c' = 4294967296 - Stoul.accumulate 0 t /\
    exploration_level c' =
      Z.min (4294967296 - Stoul.accumulate 0 x) (max_exploration_level c).
Proof.
  intros Ht Hx Hvt Hvx. unfold numeric_conversion.
  destruct (stoul_negative_small t Ht Hvt) as (vt & -> & Et).
  destruct (stoul_negative_small x Hx Hvx) as (vx & -> & Ex).
  eexists. split; [reflexivity|].
  cbn [nb_threads exploration_level max_exploration_level
       set_exploration_level set_nb_threads].
  rewrite Et, Ex. unfold UINT_MAX.
  replace (2 ^ 32 - 1 + 1) with 4294967296 by reflexivity.
  split; reflexivity.
Qed.

Lemma X18_negative_numbers_wrap_around_witness :
  exists c',
    numeric_conversion (default_cl_args error) "-2" "-1" = inr c' /\
    nb_threads c' = 4294967296 - Stoul.accumulate 0 "2" /\
    exploration_level c' = Z.min (4294967296 - Stoul.accumulate 0 "1") 5.
Proof.
  apply (X18_negative_numbers_wrap_around (default_cl_args error) "2" "1");
    try reflexivity; vm_compute; split; congruence.
Defined.

(* ================================================================== *)
(** ** Further properties of the command line *)

(** X19: after the element [--] nothing is read as a flag: every option
    keeps its default, and the element that follows is the problem text
    handed to [parse], even when it starts with a dash. *)
Theorem X19_double_dash_ends_the_flags {input_t solution_t}
    (env : environment input_t solution_t) (a : string) (rest : list string) :
  options env ("--" :: a :: rest) = [] /\
  operands env ("--" :: a :: rest) = a :: rest /\
  In (ev_parse (set_input a (default_cl_args (default_log_level env))))
     (fst (main env ("--" :: a :: rest))).
Proof.
  split; [reflexivity|]. split; [reflexivity|].
  apply parse_is_called; reflexivity.
Qed.

Lemma getopt_attached_argument (pc : bool) (c : ascii) (v : string)
    (args : list string) :
  Getopt.lookup optString c = Some true ->
  v <> "" ->
  Getopt.getopt_calls optString pc (String "-" (String c v) :: args) =
  Getopt.getopt_calls optString pc (flag_element c :: v :: args).
Proof.
  intros Hl Hv. unfold Getopt.getopt_calls, flag_element.
  assert (Ascii.eqb c "-" = false) as Hc.
  { destruct (Ascii.eqb_spec c "-") as [->|]; [discriminate|reflexivity]. }
  cbn [Getopt.scan].
  replace (String.eqb (String "-" (String c v)) "--") with false
    by (cbn; now rewrite Hc).
  replace (String.eqb (String "-" (String c "")) "--") with false
    by (cbn; now rewrite Hc).
  cbn [Getopt.nonoption Getopt.after_dash Getopt.scan_element].
  rewrite Hl. destruct v as [|d v]; [congruence|].
  cbn [Getopt.scan app].
  destruct (Getopt.scan optString pc None [] args) as [rs ops]. reflexivity.
Qed.

(** X20: for a flag that takes an argument (one of a, i, m, o, p, t, x),
    writing the argument in the same element as the flag, as in -t8, or in
    the next element, as in -t 8, gives the same run. *)
Theorem X20_attached_argument_is_the_same {input_t solution_t}
    (env : environment input_t solution_t) (c : ascii) (v : string)
    (args : list string) :
  Getopt.lookup optString c = Some true ->
  v <> "" ->
  main env (String "-" (String c v) :: args)
    = main env (flag_element c :: v :: args).
Proof.
  intros Hl Hv. unfold main, Getopt.getopt_all.
  now rewrite (getopt_attached_argument _ c v args Hl Hv).
Qed.

Lemma X20_attached_argument_is_the_same_witness :
  main Samples.solving ["-t8"; "{}"] = main Samples.solving ["-t"; "8"; "{}"].
Proof.
  apply (X20_attached_argument_is_the_same Samples.solving "t" "8" ["{}"]).
  - reflexivity.
  - discriminate.
Defined.

(* ================================================================== *)
(** ** The lines printed by [getopt] *)

Example getopt_calls_unknown_option :
  Getopt.getopt_calls optString false ["-zg"; "{}"] =
    ([(("?"%char, ""), Some (Getopt.invalid_option "z"));
      (("g"%char, ""), None)], ["{}"]).
Proof. reflexivity. Qed.

Example getopt_calls_missing_argument :
  Getopt.getopt_calls optString false ["{}"; "-o"] =
    ([(("?"%char, ""), Some (Getopt.option_requires_argument "o"))], ["{}"]).
Proof. reflexivity. Qed.

Example getopt_calls_question_mark_is_an_option :
  Getopt.getopt_calls optString false ["-?"; "{}"] =
    ([(("?"%char, ""), None)], ["{}"]).
Proof. reflexivity. Qed.

Example getopt_message_text :
  Getopt.message "vroom" (Getopt.invalid_option "z")
    = "vroom: invalid option -- 'z'".
Proof. reflexivity. Qed.

Section Process.

Context {input_t solution_t : Type}.
Variable env : environment input_t solution_t.

Lemma options_calls (args : list string) :
  options env args = map fst (calls env args) /\
  operands env args =
    snd (Getopt.getopt_calls optString (POSIXLY_CORRECT env) args).
Proof.
  unfold options, operands, calls, Getopt.getopt_all.
  now destruct (Getopt.getopt_calls optString (POSIXLY_CORRECT env) args).
Qed.

Lemma observed_flag_loop_eq (cs : list Getopt.call) (st : scan_state) :
  observed_flag_loop env cs st =
    ((map inl (printed_before_help cs)
        ++ map inr (fst (flag_loop env (map fst cs) st)))%list,
     snd (flag_loop env (map fst cs) st)).
Proof.
  revert st. induction cs as [|[r printed] cs IH]; intro st; [reflexivity|].
  cbn [observed_flag_loop printed_before_help map flag_loop fst].
  rewrite switch_cases. destruct (Ascii.eqb (fst r) "h").
  - cbn. rewrite app_nil_r. now destruct printed.
  - rewrite IH. unfold bind.
    destruct (flag_loop env (map fst cs) (switch_value env st r))
      as [es res].
    cbn [fst snd map app]. rewrite map_app, <- app_assoc.
    now destruct printed.
Qed.

Lemma printed_without_help (cs : list Getopt.call) :
  has_flag "h" (map fst cs) = false ->
  printed_before_help cs = Getopt.diagnostics cs.
Proof.
  induction cs as [|[r printed] cs IH]; [reflexivity|].
  cbn [map has_flag existsb fst]. intro H.
  apply orb_false_iff in H. destruct H as [Hr Hcs].
  cbn [printed_before_help Getopt.diagnostics flat_map snd fst].
  rewrite Hr. f_equal. now apply IH.
Qed.

Lemma main_after_flags (args : list string) :
  main env args =
    run (bind (flag_loop env (options env args) (initial_state env))
           (after_flags env (operands env args))).
Proof.
  unfold main, options, operands.
  now destruct (Getopt.getopt_all optString (POSIXLY_CORRECT env) args).
Qed.

Lemma run_bind_inl {A : Type} (es : list (event solution_t)) (a : A)
    (k : A -> M solution_t termination) :
  run (bind (es, inl a) k) =
    ((es ++ fst (run (k a)))%list, snd (run (k a))).
Proof. unfold bind. now destruct (k a) as [es' [t|t]]. Qed.

(** The process is the lines of [getopt] followed by the events of
    [main], and ends as [main] does. *)
Lemma process_eq (args : list string) :
  process env args =
    ((map inl (printed_before_help (calls env args))
        ++ map inr (fst (main env args)))%list,
     snd (main env args)).
Proof.
  rewrite main_after_flags. destruct (options_calls args) as [-> ->].
  unfold process, calls.
  destruct (Getopt.getopt_calls optString (POSIXLY_CORRECT env) args)
    as [cs ops].
  cbn [fst snd]. rewrite observed_flag_loop_eq.
  destruct (flag_loop env (map fst cs) (initial_state env)) as [es [st|t]];
    cbn [fst snd]; [|reflexivity].
  rewrite run_bind_inl.
  destruct (run (after_flags env ops st)) as [es' t].
  cbn [fst snd]. now rewrite map_app, app_assoc.
Qed.

End Process.

(** X7: when both collaborators return, the process is: the lines
    [getopt] printed for unknown flags and missing arguments, one for each
    such call in the order of the calls and none without such a call;
    then filter, [parse], [solve] with the exploration level and the
    thread count of the validated options, and one call of
    [write_to_json] with the solution [solve] returned, the geometry flag
    of the command line and the output file of the last -o.  [main]
    itself prints nothing, and the exit status is 0. *)
Theorem X7_solution_is_written {input_t solution_t}
    (env : environment input_t solution_t) (args : list string)
    (c : cl_args_t) (p : string) (problem_instance : input_t)
    (sol : solution_t) :
  has_flag "h" (options env args) = false ->
  validated env args = inr c ->
  payload env args = Some p ->
  parse env (set_input p c) = returns problem_instance ->
  solve env problem_instance (exploration_level c) (nb_threads c)
    = returns sol ->
  process env args =
    ((map inl (Getopt.diagnostics (calls env args)) ++
      map inr
        (reading env args ++
         [ev_set_filter (log_level c);
          ev_parse (set_input p c);
          ev_solve (exploration_level c) (nb_threads c);
          ev_write_to_json (doc_solution sol)
            (has_flag "g" (options env args))
            (last_optarg "o" (options env args) "")]))%list,
     exited 0).
Proof.
  intros Hh Hv Hp Hparse Hsolve. rewrite process_eq.
  rewrite (main_solution_run env args c p problem_instance sol
             Hh Hv Hp Hparse Hsolve).
  rewrite printed_without_help; [reflexivity|].
  now destruct (options_calls env args) as [<- _].
Qed.

Lemma X7_solution_is_written_witness :
  process Samples.solving ["-g"; "-k"; "-o"; "out.json"; "{}"; "-t"] =
    ([inl (Getopt.invalid_option "k");
      inl (Getopt.option_requires_argument "t");
      inr (ev_set_filter error);
      inr (ev_parse (set_input "{}"
                       (set_output_file "out.json"
                          (set_geometry true (default_cl_args error)))));
      inr (ev_solve 1 4);
      inr (ev_write_to_json (doc_solution "solution") true "out.json")],
     exited 0).
Proof.
  exact (X7_solution_is_written Samples.solving
           ["-g"; "-k"; "-o"; "out.json"; "{}"; "-t"]
           (set_output_file "out.json"
              (set_geometry true (default_cl_args error)))
           "{}" tt "solution" eq_refl eq_refl eq_refl eq_refl eq_refl).
Defined.

Lemma printed_nothing (cs : list Getopt.call) :
  Getopt.diagnostics cs = [] -> printed_before_help cs = [].
Proof.
  induction cs as [|[r printed] cs IH]; [reflexivity|].
  cbn [Getopt.diagnostics flat_map snd printed_before_help]. intro H.
  apply app_eq_nil in H. destruct H as [-> H].
  cbn [app]. destruct (Ascii.eqb (fst r) "h"); [reflexivity|].
  now apply IH.
Qed.

(** X21: everything [getopt] prints comes before the first event of
    [main]: the process is the lines of the calls made up to a help flag,
    then the events of [main], and it ends as [main] does.  Without a help
    flag these are the lines of all the calls, and when no call reports an
    unknown flag or a missing argument the process is the events of [main]
    alone. *)
Theorem X21_getopt_lines_come_first {input_t solution_t}
    (env : environment input_t solution_t) (args : list string) :
  process env args =
    ((map inl (printed_before_help (calls env args))
        ++ map inr (fst (main env args)))%list,
     snd (main env args)) /\
  (has_flag "h" (options env args) = false ->
   printed_before_help (calls env args) = Getopt.diagnostics (calls env args)) /\
  (Getopt.diagnostics (calls env args) = [] ->
   process env args = (map inr (fst (main env args)), snd (main env args))).
Proof.
  split; [apply process_eq|]. split.
  - intro Hh. apply printed_without_help.
    now destruct (options_calls env args) as [<- _].
  - intro Hd. rewrite process_eq, (printed_nothing _ Hd). reflexivity.
Qed.
